(** * Blackjack_AI: the page script [static/script.js]

    A shallow embedding of the client script of the blackjack simulator and
    the properties of its trace reconstruction, outcome classification,
    tournament formatting and controller functions.

    JavaScript values are embedded as the type [js_value]; numbers are IEEE
    binary64 values ([spec_float] at precision 53), strings are byte strings.
    The DOM is embedded by the properties the script reads and writes. *)

From Stdlib Require Import ZArith NArith String Ascii List Bool Lia.
From Stdlib Require Import SpecFloat Decimal DecimalString DecimalPos DecimalN DecimalZ.
From stdpp Require Import base tactics option list strings functions.

Local Open Scope Z_scope.

(** ** JavaScript numbers *)

Definition f64_of_Z (z : Z) : spec_float := binary_normalize 53 1024 z 0 false.
Definition f64_div : spec_float -> spec_float -> spec_float := SFdiv 53 1024.
Definition f64_mul : spec_float -> spec_float -> spec_float := SFmul 53 1024.

(** The integer a number denotes, when it denotes one. *)
Definition f64_to_Z (x : spec_float) : option Z :=
  match x with
  | S754_zero _ => Some 0
  | S754_finite s m e =>
      let v := if Z.leb 0 e then Some (Z.pos m * 2 ^ e)
               else if Z.eqb (Z.pos m mod 2 ^ (- e)) 0 then Some (Z.pos m / 2 ^ (- e))
               else None in
      (fun z : Z => if s then - z else z) <$> v
  | _ => None
  end.

(** ** JavaScript values *)

Inductive js_value : Type :=
  | JUndefined
  | JNull
  | JBool (b : bool)
  | JNum (x : spec_float)
  | JStr (s : string).

Definition js_int (z : Z) : js_value := JNum (f64_of_Z z).

(** [a === b] *)
Definition strict_eq (a b : js_value) : bool :=
  match a, b with
  | JUndefined, JUndefined => true
  | JNull, JNull => true
  | JBool x, JBool y => Bool.eqb x y
  | JNum x, JNum y => SFeqb x y
  | JStr x, JStr y => String.eqb x y
  | _, _ => false
  end.

(** ToBoolean: the test of [if (v)], [v || d] and [v ? a : b]. *)
Definition truthy (v : js_value) : bool :=
  match v with
  | JUndefined | JNull => false
  | JBool b => b
  | JNum (S754_zero _) | JNum S754_nan => false
  | JNum _ => true
  | JStr s => negb (String.eqb s "")
  end.

(** ** Decimal digits *)

Definition Z_to_string (z : Z) : string := NilZero.string_of_int (Z.to_int z).

Definition digit_value (radix : Z) (c : ascii) : option Z :=
  let n := Z.of_N (N_of_ascii c) in
  let v := if (48 <=? n) && (n <=? 57) then Some (n - 48)
           else if (97 <=? n) && (n <=? 122) then Some (n - 87)
           else if (65 <=? n) && (n <=? 90) then Some (n - 55)
           else None in
  match v with
  | Some d => if d <? radix then Some d else None
  | None => None
  end.

(** The longest prefix of [s] made of digits of the radix, read as a number;
    [None] when there is no digit. *)
Fixpoint parse_digits (radix : Z) (s : string) (acc : option Z) : option Z :=
  match s with
  | EmptyString => acc
  | String c rest =>
      match digit_value radix c with
      | Some d => parse_digits radix rest (Some (default 0 acc * radix + d))
      | None => acc
      end
  end.

Definition is_white_space (c : ascii) : bool :=
  let n := N_of_ascii c in
  (N.eqb n 9 || N.eqb n 10 || N.eqb n 11 || N.eqb n 12 || N.eqb n 13 || N.eqb n 32)%bool.

Fixpoint trim_start (s : string) : string :=
  match s with
  | String c rest => if is_white_space c then trim_start rest else s
  | EmptyString => s
  end.

(** [parseInt(s)] with no radix argument: leading white space is skipped, a
    sign is read, the prefix [0x] or [0X] selects radix 16, and the digits
    that follow are read as far as they go; the integer read is rounded to
    the nearest number. White space is the ASCII white space of ECMAScript. *)
Definition parseInt (input : string) : spec_float :=
  let s := trim_start input in
  let '(negative, s) :=
    match s with
    | String "-" rest => (true, rest)
    | String "+" rest => (false, rest)
    | _ => (false, s)
    end in
  let '(radix, s) :=
    match s with
    | String "0" (String "x" rest) => (16, rest)
    | String "0" (String "X" rest) => (16, rest)
    | _ => (10, s)
    end in
  match parse_digits radix s None with
  | None => S754_nan
  | Some 0 => S754_zero negative
  | Some n => f64_of_Z (if negative then - n else n)
  end.

(** ** Number formatting *)

(** Number::toString of a finite [m * 2^e >= 10^21] ([e > 0]): the shortest
    digit string that reads back as the same number, in exponent notation. *)
Fixpoint shortest_digits (fuel : nat) (k : Z) (X lo hi : Z) (incl : bool) (N : Z)
  : Z * Z :=
  match fuel with
  | O => (X, N - 1)
  | S fuel' =>
      let P := 10 ^ (N - k) in
      let s0 := X / P in
      let ok (v : Z) :=
        if incl then (lo <=? v) && (v <=? hi) else (lo <? v) && (v <? hi) in
      let pick (s : Z) := if s =? 10 ^ k then (1, N) else (s, N - 1) in
      match ok (s0 * P), ok ((s0 + 1) * P) with
      | true, true =>
          let below := X - s0 * P in
          let above := (s0 + 1) * P - X in
          if below <? above then pick s0
          else if above <? below then pick (s0 + 1)
          else if Z.even s0 then pick s0 else pick (s0 + 1)
      | true, false => pick s0
      | false, true => pick (s0 + 1)
      | false, false => shortest_digits fuel' (k + 1) X lo hi incl N
      end
  end.

Definition exponent_notation (m : positive) (e : Z) : string :=
  let X := Z.pos m * 2 ^ e in
  let up := 2 ^ (e - 1) in
  let down := if Z.pos m =? 2 ^ 52 then 2 ^ (e - 2) else 2 ^ (e - 1) in
  let N := Z.of_nat (String.length (Z_to_string X)) in
  let '(s, ex) := shortest_digits 17 1 X (X - down) (X + up) (Z.even (Z.pos m)) N in
  match Z_to_string s with
  | String d EmptyString => String d EmptyString +:+ "e+" +:+ Z_to_string ex
  | String d rest => String d EmptyString +:+ "." +:+ rest +:+ "e+" +:+ Z_to_string ex
  | EmptyString => EmptyString
  end.

Fixpoint zeros (n : nat) : string :=
  match n with
  | O => EmptyString
  | S n' => String "0" (zeros n')
  end.

(** The digits of [n >= 0] with a decimal point before the last [f] digits
    (steps 11.c to 11.e of Number.prototype.toFixed). *)
Definition fixed_digits (f : nat) (n : Z) : string :=
  let m := Z_to_string n in
  match f with
  | O => m
  | S _ =>
      let k := String.length m in
      let m := if (k <=? f)%nat then zeros (f + 1 - k) +:+ m else m in
      let k := String.length m in
      substring 0 (k - f) m +:+ "." +:+ substring (k - f) f m
  end.

(** [x.toFixed(f)] for [0 <= f <= 100]. *)
Definition toFixed (f : nat) (x : spec_float) : string :=
  match x with
  | S754_nan => "NaN"
  | S754_infinity false => "Infinity"
  | S754_infinity true => "-Infinity"
  | S754_zero _ => fixed_digits f 0
  | S754_finite s m e =>
      let sign := if s then "-" else "" in
      let big := if 0 <=? e then 10 ^ 21 <=? Z.pos m * 2 ^ e
                 else 10 ^ 21 <=? Z.pos m / 2 ^ (- e) in
      if big then sign +:+ exponent_notation m e
      else
        let scaled := Z.pos m * 10 ^ Z.of_nat f in
        let n := if 0 <=? e then scaled * 2 ^ e
                 else (2 * scaled + 2 ^ (- e)) / (2 * 2 ^ (- e)) in
        sign +:+ fixed_digits f n
  end.

(** ** Data carried by the service's responses *)

Module Step.
Record t : Type := mk {
  actor : string;
  action : string;
  card : js_value;
  player_total : Z;
  dealer_total : Z;
  note : option string
}.
End Step.

Module Summary.
Record t : Type := mk {
  agent : string;
  dealer_upcard : js_value;
  player_total : Z;
  dealer_total : Z;
  player_bust : js_value;
  dealer_bust : js_value
}.
End Summary.

Module Stats.
Record t : Type := mk {
  agent : string;
  hands : Z;
  wins : Z;
  losses : Z;
  pushes : Z;
  avg_return : js_value
}.
End Stats.

Module Agent.
Record t : Type := mk {
  id : string;
  name : string;
  description : string
}.
End Agent.

(** The parsed bodies. A property the body may lack is an [option]; reading
    a property of a missing object throws. *)
Record agents_data : Type := {
  ad_agents : option (list Agent.t)
}.

Record hand_data : Type := {
  hd_success : js_value;
  hd_error : option string;
  hd_summary : option Summary.t;
  hd_payoff : js_value;
  hd_steps : option (list Step.t)
}.

Record match_data : Type := {
  md_success : js_value;
  md_error : option string;
  md_results : option (option Stats.t * option Stats.t)
}.

(** What the two awaits of a controller produce: [fetch] rejects, the body
    does not parse, or the parsed body. *)
Inductive reply (D : Type) : Type :=
  | FetchRejected (error : string)
  | JsonRejected (error : string)
  | Parsed (data : D).
Arguments FetchRejected {D} error.
Arguments JsonRejected {D} error.
Arguments Parsed {D} data.

(** The JSON object a controller posts. *)
Record request : Type := {
  url : string;
  method : string;
  body : list (string * js_value)
}.

(** JSON.stringify of a property value: a number that is not finite is
    written [null]. *)
Definition json_value (v : js_value) : js_value :=
  match v with
  | JNum S754_nan | JNum (S754_infinity _) => JNull
  | _ => v
  end.

(** ** The page *)

(** Markup assigned to [innerHTML], as the nodes it parses to; white space
    between tags is not kept, and interpolated text is kept as text. *)
#[warnings="-register-all"] Inductive html : Type :=
  | Text (s : string)
  | Elem (tag className style : string) (children : list html).

(** An element the script finds by id. *)
Record element : Type := {
  disabled : bool;
  display : string;
  value : string;
  className : string;
  innerHTML : list html
}.

(** A card of the agent selector. *)
Record agent_card : Type := {
  ac_classList : list string;
  ac_innerHTML : list html;
  ac_onclick : string * string
}.

(** An element of the tab navigation: a panel or a control. *)
Record tab_element : Type := {
  te_id : string;
  te_classList : list string;
  te_data_tab : option string
}.

(** The state of the page: the global [selectedAgent], the elements the
    script looks up by id (the markup is taken to define each of them), the
    [.agent-card] elements, the elements of the tab navigation in document
    order, the target of the event being dispatched, and what the script
    has sent to [alert] and [console.error]. *)
Record page : Type := {
  selectedAgent : string;
  elements : string -> element;
  agent_cards : list agent_card;
  tabs : list tab_element;
  event : option nat;
  alerts : list string;
  console : list (list string)
}.

Definition with_selectedAgent (a : string) (p : page) : page :=
  {| selectedAgent := a; elements := elements p; agent_cards := agent_cards p;
     tabs := tabs p; event := event p; alerts := alerts p; console := console p |}.
Definition with_elements (f : string -> element) (p : page) : page :=
  {| selectedAgent := selectedAgent p; elements := f; agent_cards := agent_cards p;
     tabs := tabs p; event := event p; alerts := alerts p; console := console p |}.
Definition with_agent_cards (c : list agent_card) (p : page) : page :=
  {| selectedAgent := selectedAgent p; elements := elements p; agent_cards := c;
     tabs := tabs p; event := event p; alerts := alerts p; console := console p |}.
Definition with_tabs (t : list tab_element) (p : page) : page :=
  {| selectedAgent := selectedAgent p; elements := elements p; agent_cards := agent_cards p;
     tabs := t; event := event p; alerts := alerts p; console := console p |}.
Definition with_event (e : option nat) (p : page) : page :=
  {| selectedAgent := selectedAgent p; elements := elements p; agent_cards := agent_cards p;
     tabs := tabs p; event := e; alerts := alerts p; console := console p |}.
Definition with_alerts (a : list string) (p : page) : page :=
  {| selectedAgent := selectedAgent p; elements := elements p; agent_cards := agent_cards p;
     tabs := tabs p; event := event p; alerts := a; console := console p |}.
Definition with_console (c : list (list string)) (p : page) : page :=
  {| selectedAgent := selectedAgent p; elements := elements p; agent_cards := agent_cards p;
     tabs := tabs p; event := event p; alerts := alerts p; console := c |}.

Definition set_disabled (b : bool) (e : element) : element :=
  {| disabled := b; display := display e; value := value e;
     className := className e; innerHTML := innerHTML e |}.
Definition set_display (d : string) (e : element) : element :=
  {| disabled := disabled e; display := d; value := value e;
     className := className e; innerHTML := innerHTML e |}.
Definition set_className (c : string) (e : element) : element :=
  {| disabled := disabled e; display := display e; value := value e;
     className := c; innerHTML := innerHTML e |}.
Definition set_innerHTML (h : list html) (e : element) : element :=
  {| disabled := disabled e; display := display e; value := value e;
     className := className e; innerHTML := h |}.

(** DOMTokenList: an ordered set of class names. *)
Definition classList_contains (c : string) (l : list string) : bool :=
  bool_decide (c ∈ l).
Definition classList_add (c : string) (l : list string) : list string :=
  if classList_contains c l then l else l ++ [c].
Definition classList_remove (c : string) (l : list string) : list string :=
  filter (fun x => x <> c) l.
Definition classList_toggle (c : string) (force : bool) (l : list string) : list string :=
  if force then classList_add c l else classList_remove c l.

(** ** Effects: a state and exception monad over the page *)

Inductive result (A : Type) : Type :=
  | Ok (a : A)
  | Throw (error : string).
Arguments Ok {A} a.
Arguments Throw {A} error.

Definition M (A : Type) : Type := page -> result A * page.

#[global] Instance M_ret : MRet M := fun A a p => (Ok a, p).
#[global] Instance M_bind : MBind M := fun A B f m p =>
  match m p with
  | (Ok a, p') => f a p'
  | (Throw e, p') => (Throw e, p')
  end.

Definition throw {A : Type} (e : string) : M A := fun p => (Throw e, p).
Definition get {A : Type} (f : page -> A) : M A := fun p => (Ok (f p), p).
Definition modify (f : page -> page) : M unit := fun p => (Ok tt, f p).

(** [try { body } catch (error) { handler } finally { finalizer }] *)
Definition try_catch_finally (body : M unit) (handler : string -> M unit)
    (finalizer : M unit) : M unit := fun p =>
  let '(r, p1) :=
    match body p with
    | (Ok a, p') => (Ok a, p')
    | (Throw e, p') => handler e p'
    end in
  match finalizer p1 with
  | (Ok _, p2) => (r, p2)
  | (Throw e, p2) => (Throw e, p2)
  end.

(** [try { body } catch (error) { handler }] *)
Definition try_catch (body : M unit) (handler : string -> M unit) : M unit := fun p =>
  match body p with
  | (Ok a, p') => (Ok a, p')
  | (Throw e, p') => handler e p'
  end.

(** [await] of a promise that has settled. *)
Definition await {D : Type} (r : reply D) : M D :=
  match r with
  | FetchRejected e => throw e
  | JsonRejected e => throw e
  | Parsed d => mret d
  end.

(** Reading a property of an object that may be [undefined]. *)
Definition property {A : Type} (o : option A) (name : string) : M A :=
  match o with
  | Some a => mret a
  | None => throw ("TypeError: Cannot read properties of undefined (reading '" +:+ name +:+ "')")
  end.

Fixpoint forEach {A : Type} (l : list A) (f : A -> M unit) : M unit :=
  match l with
  | [] => mret tt
  | a :: rest => f a ;; forEach rest f
  end.

Definition update (id : string) (f : element -> element) : M unit :=
  modify (fun p => with_elements (<[id := f (elements p id)]> (elements p)) p).
Definition appendChild (id : string) (child : html) : M unit :=
  update id (fun e => set_innerHTML (innerHTML e ++ [child]) e).
Definition alert (message : string) : M unit :=
  modify (fun p => with_alerts (alerts p ++ [message]) p).
Definition console_error (args : list string) : M unit :=
  modify (fun p => with_console (console p ++ [args]) p).

(** ** Card faces *)

(** The own properties of the object [cardEmojis]. *)
Definition cardEmojis (key : Z) : option string :=
  match key with
  | 1 => Some "🅰️"
  | 2 => Some "2️⃣"
  | 3 => Some "3️⃣"
  | 4 => Some "4️⃣"
  | 5 => Some "5️⃣"
  | 6 => Some "6️⃣"
  | 7 => Some "7️⃣"
  | 8 => Some "8️⃣"
  | 9 => Some "9️⃣"
  | 10 => Some "🔟"
  | _ => None
  end.

(** The key of [cardEmojis] a value converts to when it is used as a
    property name, if it converts to one of them. *)
Definition card_key (v : js_value) : option Z :=
  match v with
  | JNum x => f64_to_Z x
  | JStr s => List.find (fun k => String.eqb s (Z_to_string k)) [1; 2; 3; 4; 5; 6; 7; 8; 9; 10]
  | _ => None
  end.

(** [cardEmojis[card] || fallback] *)
Definition card_face (card : js_value) (fallback : string) : string :=
  default fallback (card_key card ≫= cardEmojis).

Definition card_element (card : js_value) : html :=
  Elem "div" "card" "" [Text (card_face card "🃏")].

(** ** Trace reconstruction (displayGameTable, lines 165-177) *)

Definition extract_step (acc : list js_value * list js_value) (step : Step.t)
  : list js_value * list js_value :=
  let '(playerCards, dealerCards) := acc in
  if negb (strict_eq (Step.card step) JNull) then
    if String.eqb (Step.actor step) "PLAYER" then
      (playerCards ++ [Step.card step], dealerCards)
    else if String.eqb (Step.actor step) "SYSTEM" || String.eqb (Step.actor step) "DEALER" then
      (playerCards, dealerCards ++ [Step.card step])
    else acc
  else acc.

Definition extractCards (steps : list Step.t) : list js_value * list js_value :=
  fold_left extract_step steps ([], []).

(** ** Outcome classification (displayResult, lines 235-253) *)

Definition classify (payoff : js_value) (summary : Summary.t) : string * string :=
  let resultClass := "" in
  let resultText := "" in
  if strict_eq payoff (js_int 1) then
    ("win", "🎉 Player Wins!")
  else if strict_eq payoff (js_int (-1)) then
    let resultClass := "loss" in
    if truthy (Summary.player_bust summary) then
      (resultClass, "💥 Player Busts - Dealer Wins!")
    else if truthy (Summary.dealer_bust summary) then
      (resultClass, "🎯 Dealer Busts - Player Wins!")
    else
      (resultClass, "😞 Dealer Wins!")
  else
    ("push", "🤝 Push (Tie)!").

(** ** Rendering a hand *)

Definition displayGameTable (summary : option Summary.t) (steps : option (list Step.t))
  : M unit :=
  update "player-cards" (set_innerHTML []) ;;
  update "dealer-cards" (set_innerHTML []) ;;
  steps ← property steps "forEach" ;
  let '(playerCards, dealerCards) := extractCards steps in
  (if (0 <? length playerCards)%nat then
     forEach playerCards (fun card => appendChild "player-cards" (card_element card))
   else mret tt) ;;
  (if (0 <? length dealerCards)%nat then
     forEach dealerCards (fun card => appendChild "dealer-cards" (card_element card))
   else mret tt) ;;
  summary ← property summary "player_total" ;
  update "player-total" (set_innerHTML
    [Text "Total: "; Elem "strong" "" "" [Text (Z_to_string (Summary.player_total summary))]]) ;;
  update "dealer-total" (set_innerHTML
    [Text "Total: "; Elem "strong" "" "" [Text (Z_to_string (Summary.dealer_total summary))]]) ;;
  update "action-indicator" (set_innerHTML [Text "✓ Hand Complete"]) ;;
  update "agent-info" (set_innerHTML
    [Elem "strong" "" "" [Text "Agent:"];
     Text (" " +:+ Summary.agent summary +:+ " | ");
     Elem "strong" "" "" [Text "Dealer Upcard:"];
     Text (" " +:+ card_face (Summary.dealer_upcard summary) "?")]).

Definition displayResult (payoff : js_value) (summary : Summary.t) : M unit :=
  let '(resultClass, resultText) := classify payoff summary in
  update "result-box" (set_className ("result-box " +:+ resultClass)) ;;
  update "result-box" (set_innerHTML
    [Elem "div" "" "" [Text resultText];
     Elem "div" "" "margin-top: 10px; font-size: 0.9em;"
       [Text ("Player: " +:+ Z_to_string (Summary.player_total summary)
              +:+ " | Dealer: " +:+ Z_to_string (Summary.dealer_total summary))]]).

Definition trace_item (step : Step.t) : html :=
  let card := if truthy (Step.card step) then card_face (Step.card step) "🃏" else "" in
  Elem "div" "step-item" ""
    ([Elem "span" "step-actor" "" [Text (Step.actor step)];
      Elem "span" "step-action" "" [Text (Step.action step)];
      Text (card +:+ " | P:" +:+ Z_to_string (Step.player_total step)
            +:+ " D:" +:+ Z_to_string (Step.dealer_total step))]
     ++ match Step.note step with
        | Some note => if truthy (JStr note) then [Elem "span" "step-note" "" [Text note]] else []
        | None => []
        end).

Definition displayTrace (steps : list Step.t) : M unit :=
  let html := [Elem "h4" "" "" [Text "📝 Hand Trace"]] in
  let html := fold_left (fun html step => html ++ [trace_item step]) steps html in
  update "steps-trace" (set_innerHTML html).

(** [displayResult] and [displayTrace] run once [displayGameTable] has read
    both [summary] and [steps]. *)
Definition displayHand (data : hand_data) (agentId : string) : M unit :=
  let summary := hd_summary data in
  let steps := hd_steps data in
  displayGameTable summary steps ;;
  summary ← property summary "player_bust" ;
  displayResult (hd_payoff data) summary ;;
  steps ← property steps "forEach" ;
  displayTrace steps.

(** ** Playing a hand *)

(** [value || null], then [seed ? parseInt(seed) : null]. *)
Definition seed_argument (value : string) : js_value :=
  let seed := if truthy (JStr value) then JStr value else JNull in
  match seed with
  | JStr s => if truthy seed then JNum (parseInt s) else JNull
  | _ => JNull
  end.

(** ['text' + v] for a string property that may be missing. *)
Definition concat_property (text : string) (v : option string) : string :=
  text +:+ default "undefined" v.

(** [playHand] up to its first [await]: the request it hands to [fetch]. *)
Definition playHand_begin : M request :=
  value ← get (fun p => value (elements p "seed-input")) ;
  let seed := seed_argument value in
  update "play-btn" (set_disabled true) ;;
  update "loading" (set_display "block") ;;
  agent ← get selectedAgent ;
  mret {| url := "/api/play-hand"; method := "POST";
          body := [("agent_id", JStr agent); ("seed", json_value seed)] |}.

(** [playHand] from the point its awaits settle. *)
Definition playHand_resume (response : reply hand_data) : M unit :=
  try_catch_finally
    (data ← await response ;
     if truthy (hd_success data) then
       agent ← get selectedAgent ;
       displayHand data agent ;;
       update "welcome-message" (set_display "none") ;;
       update "game-content" (set_display "block")
     else
       alert (concat_property "Error playing hand: " (hd_error data)))
    (fun error =>
       console_error ["Error:"; error] ;;
       alert "Failed to play hand")
    (update "play-btn" (set_disabled false) ;;
     update "loading" (set_display "none")).

(** ** Running a tournament *)

(** [(stats.wins / stats.hands * 100).toFixed(1)] *)
Definition winRate (stats : Stats.t) : string :=
  toFixed 1 (f64_mul (f64_div (f64_of_Z (Stats.wins stats)) (f64_of_Z (Stats.hands stats)))
                     (f64_of_Z 100)).

(** [stats.avg_return.toFixed(4)] *)
Definition avg_return_text (v : js_value) : M string :=
  match v with
  | JNum x => mret (toFixed 4 x)
  | JUndefined | JNull =>
      throw "TypeError: Cannot read properties of undefined (reading 'toFixed')"
  | _ => throw "TypeError: stats.avg_return.toFixed is not a function"
  end.

Definition result_stat (label text : string) : html :=
  Elem "div" "result-stat" ""
    [Elem "span" "result-stat-label" "" [Text label];
     Elem "span" "result-stat-value" "" [Text text]].

Definition result_card (stats : Stats.t) (winRate avg_return : string) : html :=
  Elem "div" "result-card" ""
    [Elem "h3" "" "" [Text (Stats.agent stats)];
     result_stat "Total Hands:" (Z_to_string (Stats.hands stats));
     result_stat "Wins:" (Z_to_string (Stats.wins stats));
     result_stat "Losses:" (Z_to_string (Stats.losses stats));
     result_stat "Pushes:" (Z_to_string (Stats.pushes stats));
     result_stat "Win Rate:" (winRate +:+ "%");
     result_stat "Avg Return:" avg_return].

Definition results_entry (stats : option Stats.t) : M html :=
  stats ← property stats "wins" ;
  let winRate := winRate stats in
  avg ← avg_return_text (Stats.avg_return stats) ;
  mret (result_card stats winRate avg).

Definition displayTournamentResults (results : option (option Stats.t * option Stats.t))
  : M unit :=
  results ← property results "A" ;
  a ← results_entry (fst results) ;
  b ← results_entry (snd results) ;
  update "results-grid" (set_innerHTML [a; b]).

(** [parseInt(value) || 1000] *)
Definition numHands_of (value : string) : spec_float :=
  let n := parseInt value in
  if truthy (JNum n) then n else f64_of_Z 1000.

Definition runTournament_begin : M request :=
  hands ← get (fun p => value (elements p "hands-input")) ;
  let numHands := numHands_of hands in
  value ← get (fun p => value (elements p "tournament-seed-input")) ;
  let seed := seed_argument value in
  update "run-tournament-btn" (set_disabled true) ;;
  update "tournament-loading" (set_display "block") ;;
  mret {| url := "/api/match"; method := "POST";
          body := [("num_hands", json_value (JNum numHands)); ("seed", json_value seed)] |}.

Definition runTournament_resume (response : reply match_data) : M unit :=
  try_catch_finally
    (data ← await response ;
     if truthy (md_success data) then
       displayTournamentResults (md_results data) ;;
       update "tournament-welcome" (set_display "none") ;;
       update "tournament-results" (set_display "block")
     else
       alert (concat_property "Error running tournament: " (md_error data)))
    (fun error =>
       console_error ["Error:"; error] ;;
       alert "Failed to run tournament")
    (update "run-tournament-btn" (set_disabled false) ;;
     update "tournament-loading" (set_display "none")).

(** ** The agent selector *)

(** The card [loadAgents] builds for an agent. *)
Definition new_agent_card (agent : Agent.t) : agent_card :=
  {| ac_classList :=
       "agent-card" :: (if String.eqb (Agent.id agent) "EV" then ["selected"] else []);
     ac_innerHTML :=
       [Elem "h4" "" "" [Text (Agent.name agent)];
        Elem "p" "" "" [Text (Agent.description agent)]];
     ac_onclick := (Agent.id agent, Agent.name agent) |}.

(** [loadAgents] from the point its awaits settle. Before them it only
    calls [fetch('/api/agents')]. *)
Definition loadAgents_resume (response : reply agents_data) : M unit :=
  try_catch
    (data ← await response ;
     modify (with_agent_cards []) ;;
     agents ← property (ad_agents data) "forEach" ;
     forEach agents (fun agent =>
       modify (fun p => with_agent_cards (agent_cards p ++ [new_agent_card agent]) p)))
    (fun error => console_error ["Failed to load agents:"; error]).

Definition selectAgent (agentId agentName : string) : M unit :=
  modify (with_selectedAgent agentId) ;;
  modify (fun p => with_agent_cards
    (imap (fun index card =>
       {| ac_classList :=
            classList_toggle "selected"
              ((Nat.eqb index 0 && String.eqb agentId "EV")
               || (Nat.eqb index 1 && String.eqb agentId "NAIVE"))
              (ac_classList card);
          ac_innerHTML := ac_innerHTML card;
          ac_onclick := ac_onclick card |})
       (agent_cards p)) p).

(** A click on the card at [index] runs its [onclick]. *)
Definition agent_card_click (index : nat) : M unit :=
  card ← get (fun p => agent_cards p !! index) ;
  match card with
  | Some card => selectAgent (fst (ac_onclick card)) (snd (ac_onclick card))
  | None => mret tt
  end.

(** ** Tab navigation *)

Definition te_update (f : list string -> list string) (el : tab_element) : tab_element :=
  {| te_id := te_id el; te_classList := f (te_classList el); te_data_tab := te_data_tab el |}.

Definition matches (cls : string) (el : tab_element) : bool :=
  classList_contains cls (te_classList el).

(** [document.getElementById(id)]: the first element with that id. *)
Definition getElementById (id : string) (doc : list tab_element) : option nat :=
  fst <$> list_find (fun el => te_id el = id) doc.

Definition showTab (tabName : option string) : M unit :=
  modify (fun p => with_tabs
    ((fun tab => if matches "tab-content" tab then te_update (classList_remove "active") tab
                 else tab) <$> tabs p) p) ;;
  modify (fun p => with_tabs
    ((fun btn => if matches "tab-btn" btn then te_update (classList_remove "active") btn
                 else btn) <$> tabs p) p) ;;
  let tabId := default "null" tabName +:+ "-tab" in
  tab ← get (fun p => getElementById tabId (tabs p)) ;
  match tab with
  | Some i => modify (fun p => with_tabs (alter (te_update (classList_add "active")) i (tabs p)) p)
  | None => mret tt
  end ;;
  event ← get event ;
  target ← property event "target" ;
  modify (fun p => with_tabs (alter (te_update (classList_add "active")) target (tabs p)) p).

(** The click listener [setupTabNavigation] puts on every [.tab-btn]; while
    it runs, the global [event] is the click and its target the control. *)
Definition tab_btn_click (target : nat) : M unit := fun p =>
  match tabs p !! target with
  | Some btn =>
      if matches "tab-btn" btn then
        let '(r, p') := showTab (te_data_tab btn) (with_event (Some target) p) in
        (r, with_event (event p) p')
      else (Ok tt, p)
  | None => (Ok tt, p)
  end.

(** ** The specification's vocabulary *)

(** A step counts for the player when its actor is PLAYER and its card is
    not null; for the dealer when its actor is DEALER or SYSTEM and its card
    is not null. *)
Definition has_card (step : Step.t) : bool :=
  match Step.card step with
  | JNull => false
  | _ => true
  end.

Definition player_step (step : Step.t) : bool :=
  has_card step && String.eqb (Step.actor step) "PLAYER".

Definition dealer_step (step : Step.t) : bool :=
  has_card step
  && (String.eqb (Step.actor step) "DEALER" || String.eqb (Step.actor step) "SYSTEM").

(** The outcome categories and the precedence rules of the classifier. *)
Inductive category : Type := WIN | LOSS_BUST | LOSS_DEALER | PUSH.

Definition spec_category (payoff : Z) (player_bust dealer_bust : bool) : category :=
  if payoff =? 1 then WIN
  else if (payoff =? -1) && player_bust then LOSS_BUST
  else if (payoff =? -1) && dealer_bust then LOSS_DEALER
  else if payoff =? -1 then LOSS_DEALER
  else PUSH.

(** The visual class and the message of each category. *)
Definition outcome_table (c : category) : string * string :=
  match c with
  | WIN => ("win", "🎉 Player Wins!")
  | LOSS_BUST => ("loss", "💥 Player Busts - Dealer Wins!")
  | LOSS_DEALER => ("loss", "😞 Dealer Wins!")
  | PUSH => ("push", "🤝 Push (Tie)!")
  end.

(** The result the script has besides: a lost hand whose summary says the
    dealer bust and the player did not. *)
Definition dealer_bust_loss : string * string :=
  ("loss", "🎯 Dealer Busts - Player Wins!").

Definition summary_with (player_bust dealer_bust : js_value) : Summary.t :=
  Summary.mk "EV" (js_int 10) 20 18 player_bust dealer_bust.

(** The end-to-end example of the specification, with a stand in between. *)
Definition example_steps : list Step.t :=
  [Step.mk "PLAYER" "deal" (js_int 10) 10 0 None;
   Step.mk "PLAYER" "deal" (js_int 7) 17 0 None;
   Step.mk "DEALER" "deal" (js_int 6) 17 6 None;
   Step.mk "PLAYER" "stand" JNull 17 6 None;
   Step.mk "DEALER" "hit" (js_int 10) 17 16 (Some "dealer draws")].

(** The results [classify] can give. *)
Definition results : list (string * string) :=
  [outcome_table WIN; outcome_table LOSS_BUST; dealer_bust_loss;
   outcome_table LOSS_DEALER; outcome_table PUSH].

(** The page as the script starts: nothing rendered, [selectedAgent] at its
    initial value. *)
Definition blank_element : element :=
  {| disabled := false; display := ""; value := ""; className := ""; innerHTML := [] |}.

Definition blank_page : page :=
  {| selectedAgent := "EV"; elements := fun _ => blank_element; agent_cards := [];
     tabs := []; event := None; alerts := []; console := [] |}.

(** ** Which elements a function writes *)

(** [writes_only ids m]: running [m] leaves every element whose id is not in
    [ids] as it was. *)
Definition writes_only {A : Type} (ids : list string) (m : M A) : Prop :=
  forall (p : page) (id : string), id ∉ ids -> elements (m p).2 id = elements p id.

(** [keeps f m]: running [m] does not change the part [f] of the page. *)
Definition keeps {A B : Type} (f : page -> B) (m : M A) : Prop :=
  forall p : page, f (m p).2 = f p.

Definition hand_view_ids : list string :=
  ["player-cards"; "dealer-cards"; "player-total"; "dealer-total";
   "action-indicator"; "agent-info"; "result-box"; "steps-trace"].

Definition hand_ids : list string :=
  hand_view_ids ++ ["welcome-message"; "game-content"; "play-btn"; "loading"].

Definition tournament_ids : list string :=
  ["results-grid"; "tournament-welcome"; "tournament-results";
   "run-tournament-btn"; "tournament-loading"].

(** ** The page as a reactive system *)

(** What can happen to the page: a listener runs, or the awaits of a
    suspended function settle. *)
Inductive page_event : Type :=
  | AgentsLoaded (response : reply agents_data)
  | AgentCardClick (index : nat)
  | TabClick (target : nat)
  | PlayClick
  | HandSettled (response : reply hand_data)
  | RunClick
  | MatchSettled (response : reply match_data).

Definition handle (ev : page_event) : M unit :=
  match ev with
  | AgentsLoaded r => loadAgents_resume r
  | AgentCardClick i => agent_card_click i
  | TabClick t => tab_btn_click t
  | PlayClick => playHand_begin ≫= fun _ => mret tt
  | HandSettled r => playHand_resume r
  | RunClick => runTournament_begin ≫= fun _ => mret tt
  | MatchSettled r => runTournament_resume r
  end.

(** The page together with the calls that are in flight. *)
Record world : Type := {
  pg : page;
  hand_pending : bool;
  match_pending : bool
}.

(** A disabled button dispatches no click; a call settles only while it is
    in flight. *)
Inductive world_step : world -> world -> Prop :=
  | step_play (w : world) :
      disabled (elements (pg w) "play-btn") = false ->
      world_step w {| pg := (handle PlayClick (pg w)).2; hand_pending := true;
                      match_pending := match_pending w |}
  | step_hand (w : world) (r : reply hand_data) :
      hand_pending w = true ->
      world_step w {| pg := (handle (HandSettled r) (pg w)).2; hand_pending := false;
                      match_pending := match_pending w |}
  | step_run (w : world) :
      disabled (elements (pg w) "run-tournament-btn") = false ->
      world_step w {| pg := (handle RunClick (pg w)).2; hand_pending := hand_pending w;
                      match_pending := true |}
  | step_match (w : world) (r : reply match_data) :
      match_pending w = true ->
      world_step w {| pg := (handle (MatchSettled r) (pg w)).2;
                      hand_pending := hand_pending w; match_pending := false |}
  | step_agents (w : world) (r : reply agents_data) :
      world_step w {| pg := (handle (AgentsLoaded r) (pg w)).2;
                      hand_pending := hand_pending w; match_pending := match_pending w |}
  | step_agent_card (w : world) (i : nat) :
      world_step w {| pg := (handle (AgentCardClick i) (pg w)).2;
                      hand_pending := hand_pending w; match_pending := match_pending w |}
  | step_tab (w : world) (t : nat) :
      world_step w {| pg := (handle (TabClick t) (pg w)).2;
                      hand_pending := hand_pending w; match_pending := match_pending w |}.

(** The worlds the page can reach once it has loaded with both buttons
    enabled and no call in flight. *)
Inductive reachable : world -> Prop :=
  | reachable_loaded (p : page) :
      disabled (elements p "play-btn") = false ->
      disabled (elements p "run-tournament-btn") = false ->
      reachable {| pg := p; hand_pending := false; match_pending := false |}
  | reachable_step (w w' : world) :
      reachable w -> world_step w w' -> reachable w'.

(** Each control is disabled exactly while its call is in flight. *)
Definition lock_invariant (w : world) : Prop :=
  disabled (elements (pg w) "play-btn") = hand_pending w
  /\ disabled (elements (pg w) "run-tournament-btn") = match_pending w.

(** ** Failures of a call *)

(** The failures of a play-hand call, with the notification the script
    raises for each: a fetch that rejects or a body that does not parse, and
    a body of the shape [{success: false, error: message}]. *)
Inductive hand_failure : reply hand_data -> string -> Prop :=
  | hand_fetch_rejected (e : string) :
      hand_failure (FetchRejected e) "Failed to play hand"
  | hand_json_rejected (e : string) :
      hand_failure (JsonRejected e) "Failed to play hand"
  | hand_service_error (d : hand_data) (message : string) :
      hd_success d = JBool false -> hd_error d = Some message ->
      hand_failure (Parsed d) ("Error playing hand: " +:+ message).

(** The error string a failure carries. *)
Definition error_string (r : reply hand_data) : option string :=
  match r with
  | FetchRejected e | JsonRejected e => Some e
  | Parsed d => hd_error d
  end.

Definition service_error (message : string) : hand_data :=
  {| hd_success := JBool false; hd_error := Some message; hd_summary := None;
     hd_payoff := JUndefined; hd_steps := None |}.

(** A page that shows a hand played before. *)
Definition played_page : page :=
  with_elements
    (<["game-content" := set_display "block" blank_element]>
       (<["welcome-message" := set_display "none" blank_element]>
          (<["loading" := set_display "none" blank_element]> (elements blank_page))))
    blank_page.

(** The worlds after a click on Play and after its call has failed. *)
Definition world_loaded : world :=
  {| pg := played_page; hand_pending := false; match_pending := false |}.
Definition world_in_flight : world :=
  {| pg := (handle PlayClick played_page).2; hand_pending := true; match_pending := false |}.
Definition world_settled : world :=
  {| pg := (handle (HandSettled (FetchRejected "Failed to fetch")) (pg world_in_flight)).2;
     hand_pending := false; match_pending := false |}.


(** The statistics of the specification's examples. *)
Definition stats_of (hands wins : Z) : Stats.t :=
  Stats.mk "EV" hands wins 0 (hands - wins) (JNum (f64_div (f64_of_Z 15) (f64_of_Z 1000))).

(** The text of a node and of the nodes below it. *)
Fixpoint html_text (h : html) : string :=
  match h with
  | Text s => s
  | Elem _ _ _ children => fold_right (fun c acc => html_text c +:+ acc) "" children
  end.

(** ** Selection and activity marks *)

Definition is_selected (card : agent_card) : bool :=
  classList_contains "selected" (ac_classList card).

(** The indices of the cards marked selected. *)
Definition selected_indices (p : page) : list nat :=
  filter (fun i => is_selected <$> agent_cards p !! i = Some true)
         (seq 0 (length (agent_cards p))).

(** The test [selectAgent] passes to [toggle] for the card at [index]. *)
Definition marks (agentId : string) (index : nat) : bool :=
  (Nat.eqb index 0 && String.eqb agentId "EV")
  || (Nat.eqb index 1 && String.eqb agentId "NAIVE").

(** The page once [loadAgents] has rendered [catalog]. *)
Definition loaded (catalog : list Agent.t) (p : page) : page :=
  (loadAgents_resume (Parsed {| ad_agents := Some catalog |}) p).2.

Definition agent_EV : Agent.t := Agent.mk "EV" "Expected Value" "Plays the best expected value".
Definition agent_NAIVE : Agent.t := Agent.mk "NAIVE" "Naive" "Hits below 17".
Definition agent_RANDOM : Agent.t := Agent.mk "RANDOM" "Random" "Plays at random".

(** ** What a click on a tab control leaves *)

(** The two [forEach] loops of [showTab] on one element. *)
Definition deactivate (el : tab_element) : tab_element :=
  let el := if matches "tab-content" el then te_update (classList_remove "active") el else el in
  if matches "tab-btn" el then te_update (classList_remove "active") el else el.

(** The element at index [j] once [showTab] has run, [panel] being what
    [getElementById] found and [target] the target of the event. *)
Definition shown (panel : option nat) (target : nat) (j : nat) (el : tab_element)
  : tab_element :=
  let el := deactivate el in
  let el := if decide (panel = Some j) then te_update (classList_add "active") el else el in
  if decide (target = j) then te_update (classList_add "active") el else el.

(** The indices of the active panels and of the active controls. *)
Definition active_of (cls : string) (doc : list tab_element) : list nat :=
  filter (fun j => (fun el => matches cls el && matches "active" el) <$> doc !! j = Some true)
         (seq 0 (length doc)).

(** How many times an element carries the class [active]. *)
Definition active_marks (el : tab_element) : nat :=
  length (filter (fun c => c = "active") (te_classList el)).

(** A page with three tabs, the second of them active. *)
Definition tabs_page : page :=
  with_tabs
    [ {| te_id := ""; te_classList := ["tab-btn"]; te_data_tab := Some "play" |};
      {| te_id := ""; te_classList := ["tab-btn"; "active"]; te_data_tab := Some "tournament" |};
      {| te_id := ""; te_classList := ["tab-btn"]; te_data_tab := Some "about" |};
      {| te_id := "play-tab"; te_classList := ["tab-content"]; te_data_tab := None |};
      {| te_id := "tournament-tab"; te_classList := ["tab-content"; "active"];
         te_data_tab := None |};
      {| te_id := "about-tab"; te_classList := ["tab-content"]; te_data_tab := None |} ]
    blank_page.

(** The class list [shown] leaves: [active] is taken off a panel or a
    control, and put last on the element found by id and on the target. *)
Definition shown_classList (panel : option nat) (target : nat) (j : nat) (el : tab_element)
  : list string :=
  let base :=
    if matches "tab-content" el || matches "tab-btn" el
    then classList_remove "active" (te_classList el) else te_classList el in
  if bool_decide (panel = Some j \/ target = j) then classList_add "active" base else base.

(** ** Further functions of the script *)

(** [displayCards] (no caller in the script): the totals, with the cards
    cleared. *)
Definition displayCards (summary : option Summary.t) : M unit :=
  summary ← property summary "player_total" ;
  let playerTotal := Summary.player_total summary in
  let dealerTotal := Summary.dealer_total summary in
  update "player-cards" (set_innerHTML []) ;;
  update "dealer-cards" (set_innerHTML []) ;;
  update "player-total" (set_innerHTML
    [Text "Total: "; Elem "strong" "" "" [Text (Z_to_string playerTotal)]]) ;;
  update "dealer-total" (set_innerHTML
    [Text "Total: "; Elem "strong" "" "" [Text (Z_to_string dealerTotal)]]).

(** The elements a handler may write. *)
Definition event_ids (ev : page_event) : list string :=
  match ev with
  | AgentsLoaded _ | AgentCardClick _ | TabClick _ => []
  | PlayClick => ["play-btn"; "loading"]
  | HandSettled _ => hand_ids
  | RunClick => ["run-tournament-btn"; "tournament-loading"]
  | MatchSettled _ => tournament_ids
  end.


(** A response to a play-hand call for the example steps, and one that says
    success and carries nothing. *)
Definition example_hand : hand_data :=
  {| hd_success := JBool true; hd_error := None;
     hd_summary := Some (Summary.mk "EV" (js_int 6) 17 16 (JBool false) (JBool false));
     hd_payoff := js_int 1; hd_steps := Some example_steps |}.

Definition malformed_hand : hand_data :=
  {| hd_success := JBool true; hd_error := None; hd_summary := None;
     hd_payoff := JUndefined; hd_steps := None |}.

(** The page once the example hand has been played on it. *)
Definition example_played : page := (playHand_resume (Parsed example_hand) played_page).2.

(** The page of three tabs without the panel of the third. *)
Definition tabs_page_no_about : page := with_tabs (take 5 (tabs tabs_page)) tabs_page.


(** [commutes f m]: running [m] after the change [f] of the page is running
    it before [f]. *)
Definition commutes {A : Type} (f : page -> page) (m : M A) : Prop :=
  forall p, m (f p) = ((m p).1, f (m p).2).

(** * Properties *)

Ltac in_list := solve [rewrite !elem_of_cons; repeat first [ by left | right ]].

(** ** Trace reconstruction *)

Lemma strict_eq_null (v : js_value) : strict_eq v JNull = negb (match v with JNull => false | _ => true end).
Proof. by destruct v. Qed.

Lemma extract_step_spec (acc : list js_value * list js_value) (step : Step.t) :
  extract_step acc step =
    (acc.1 ++ (if player_step step then [Step.card step] else []),
     acc.2 ++ (if dealer_step step then [Step.card step] else [])).
Proof.
  destruct acc as [pc dc]. unfold extract_step, player_step, dealer_step, has_card.
  rewrite strict_eq_null. simpl.
  destruct (Step.card step) eqn:Hc; simpl; rewrite ?app_nil_r; try done;
    destruct (String.eqb_spec (Step.actor step) "PLAYER") as [Hp|Hp]; simpl;
    rewrite ?app_nil_r; try rewrite Hp; simpl; try done;
    (destruct (String.eqb (Step.actor step) "SYSTEM"),
             (String.eqb (Step.actor step) "DEALER"); simpl; by rewrite ?app_nil_r).
Qed.

Lemma extractCards_from (steps : list Step.t) (acc : list js_value * list js_value) :
  fold_left extract_step steps acc =
    (acc.1 ++ (Step.card <$> List.filter player_step steps),
     acc.2 ++ (Step.card <$> List.filter dealer_step steps)).
Proof.
  revert acc. induction steps as [|step steps IH]; intros acc.
  - destruct acc. simpl. by rewrite !app_nil_r.
  - cbn [fold_left List.filter]. rewrite IH, extract_step_spec. cbn [fst snd].
    rewrite <- !app_assoc. by destruct (player_step step), (dealer_step step).
Qed.

(** C1. For every sequence of steps the reconstruction yields, in the order
    of the steps, the cards of the steps with actor PLAYER and a card that is
    not null, and the cards of the steps with actor DEALER or SYSTEM and a
    card that is not null; so each sequence has as many cards as there are
    such steps, and a step whose card is null adds nothing to either. *)
Theorem extractCards_partition (steps : list Step.t) :
  extractCards steps =
    (Step.card <$> List.filter player_step steps,
     Step.card <$> List.filter dealer_step steps)
  /\ length (extractCards steps).1 = length (List.filter player_step steps)
  /\ length (extractCards steps).2 = length (List.filter dealer_step steps)
  /\ (forall before step after,
        steps = before ++ step :: after -> Step.card step = JNull ->
        extractCards steps = extractCards (before ++ after)).
Proof.
  unfold extractCards. split_and!.
  - by rewrite extractCards_from.
  - rewrite extractCards_from. cbn. by rewrite length_fmap.
  - rewrite extractCards_from. cbn. by rewrite length_fmap.
  - intros before step after -> Hnull. rewrite !extractCards_from.
    rewrite !List.filter_app. cbn [List.filter].
    unfold player_step, dealer_step, has_card. by rewrite Hnull.
Qed.

Lemma extractCards_partition_example :
  extractCards example_steps = ([js_int 10; js_int 7], [js_int 6; js_int 10])
  /\ extractCards example_steps
     = extractCards (take 3 example_steps ++ drop 4 example_steps).
Proof.
  split.
  - exact (proj1 (extractCards_partition example_steps)).
  - exact (proj2 (proj2 (proj2 (extractCards_partition example_steps)))
             (take 3 example_steps) (Step.mk "PLAYER" "stand" JNull 17 6 None)
             (drop 4 example_steps) eq_refl eq_refl).
Defined.

(** ** Outcome classification *)

Lemma payoff_tests :
  strict_eq (js_int 1) (js_int 1) = true
  /\ strict_eq (js_int (-1)) (js_int 1) = false
  /\ strict_eq (js_int (-1)) (js_int (-1)) = true
  /\ strict_eq (js_int 0) (js_int 1) = false
  /\ strict_eq (js_int 0) (js_int (-1)) = false.
Proof. by vm_compute. Qed.

Lemma classify_cases (payoff : js_value) (summary : Summary.t) :
  classify payoff summary ∈ results.
Proof.
  unfold classify, results.
  destruct (strict_eq payoff (js_int 1)); [in_list|].
  destruct (strict_eq payoff (js_int (-1))); [|in_list].
  destruct (truthy (Summary.player_bust summary)); [in_list|].
  destruct (truthy (Summary.dealer_bust summary)); in_list.
Qed.

(** C2, as the script has it. For a payoff of 1, -1 or 0 and any bust flags:
    payoff 1 is WIN whatever the flags; payoff -1 with player_bust is
    LOSS_BUST; payoff -1 with neither flag is LOSS_DEALER; payoff -1 with
    dealer_bust and without player_bust is a result of its own, of class loss
    and with the dealer-busts message; payoff 0 is PUSH. Each message has one
    visual class. *)
Theorem classify_table (payoff : Z) (summary : Summary.t) :
  payoff = 1 \/ payoff = -1 \/ payoff = 0 ->
  classify (js_int payoff) summary =
    (if (payoff =? -1) && negb (truthy (Summary.player_bust summary))
        && truthy (Summary.dealer_bust summary)
     then dealer_bust_loss
     else outcome_table (spec_category payoff (truthy (Summary.player_bust summary))
                                       (truthy (Summary.dealer_bust summary))))
  /\ (forall payoff' summary',
        (classify payoff' summary').2 = (classify (js_int payoff) summary).2 ->
        (classify payoff' summary').1 = (classify (js_int payoff) summary).1).
Proof.
  destruct payoff_tests as (T1 & T2 & T3 & T4 & T5).
  intros Hp. split.
  - unfold classify, spec_category.
    destruct Hp as [->|[->| ->]]; rewrite ?T1, ?T2, ?T3, ?T4, ?T5; cbn [Z.eqb Pos.eqb andb];
      try done.
    by destruct (truthy (Summary.player_bust summary)),
                (truthy (Summary.dealer_bust summary)).
  - intros payoff' summary'.
    pose proof (classify_cases payoff' summary') as H1.
    pose proof (classify_cases (js_int payoff) summary) as H2.
    unfold results in H1, H2. rewrite !elem_of_cons, elem_of_nil in H1, H2.
    destruct H1 as [->|[->|[->|[->|[->|[]]]]]];
      destruct H2 as [->|[->|[->|[->|[->|[]]]]]]; cbn; done.
Qed.

Lemma classify_table_witness :
  classify (js_int (-1)) (summary_with (JBool true) (JBool true)) = outcome_table LOSS_BUST
  /\ classify (js_int 1) (summary_with (JBool false) (JBool true)) = outcome_table WIN
  /\ classify (js_int (-1)) (summary_with (JBool false) (JBool false)) = outcome_table LOSS_DEALER.
Proof.
  split_and!.
  - exact (proj1 (classify_table (-1) (summary_with (JBool true) (JBool true))
                    (or_intror (or_introl eq_refl)))).
  - exact (proj1 (classify_table 1 (summary_with (JBool false) (JBool true))
                    (or_introl eq_refl))).
  - exact (proj1 (classify_table (-1) (summary_with (JBool false) (JBool false))
                    (or_intror (or_introl eq_refl)))).
Defined.

(** C2 as it is stated fails: a payoff of -1 with dealer_bust set and
    player_bust clear is not given the plain dealer-wins result. *)
Lemma classify_dealer_bust_counterexample :
  spec_category (-1) false true = LOSS_DEALER
  /\ classify (js_int (-1)) (summary_with (JBool false) (JBool true)) = dealer_bust_loss
  /\ classify (js_int (-1)) (summary_with (JBool false) (JBool true))
     <> outcome_table (spec_category (-1) false true).
Proof. split_and!; [done| by vm_compute | by vm_compute]. Qed.

Lemma displayResult_run (payoff : js_value) (summary : Summary.t) (p : page) :
  exists p',
    displayResult payoff summary p = (Ok tt, p')
    /\ className (elements p' "result-box")
       = "result-box " +:+ (classify payoff summary).1
    /\ innerHTML (elements p' "result-box")
       = [Elem "div" "" "" [Text (classify payoff summary).2];
          Elem "div" "" "margin-top: 10px; font-size: 0.9em;"
            [Text ("Player: " +:+ Z_to_string (Summary.player_total summary)
                   +:+ " | Dealer: " +:+ Z_to_string (Summary.dealer_total summary))]]
    /\ (forall id, id <> "result-box" -> elements p' id = elements p id).
Proof.
  unfold displayResult. destruct (classify payoff summary) as [cls msg].
  eexists. split; [reflexivity|]. cbn. rewrite !fn_lookup_insert. split_and!; try done.
  intros id Hid. by rewrite !fn_lookup_insert_ne.
Qed.

(** C9. For a payoff of -1, 0 or 1 and boolean bust flags the classification
    is defined, it is one of the script's results, and it is the same for
    any two summaries that agree on the flags; [displayResult] returns
    normally from every page and leaves in the result box the class and the
    message of that classification, whatever the page held before. *)
Theorem displayResult_total_deterministic (payoff : Z) (player_bust dealer_bust : bool)
    (s1 s2 : Summary.t) (p1 p2 : page) :
  payoff = 1 \/ payoff = -1 \/ payoff = 0 ->
  Summary.player_bust s1 = JBool player_bust -> Summary.dealer_bust s1 = JBool dealer_bust ->
  Summary.player_bust s2 = JBool player_bust -> Summary.dealer_bust s2 = JBool dealer_bust ->
  classify (js_int payoff) s1 = classify (js_int payoff) s2
  /\ classify (js_int payoff) s1 ∈ results
  /\ exists p1' p2',
       displayResult (js_int payoff) s1 p1 = (Ok tt, p1')
       /\ displayResult (js_int payoff) s2 p2 = (Ok tt, p2')
       /\ className (elements p1' "result-box")
          = "result-box " +:+ (classify (js_int payoff) s1).1
       /\ className (elements p2' "result-box") = className (elements p1' "result-box")
       /\ innerHTML (elements p1' "result-box") !! 0%nat
          = Some (Elem "div" "" "" [Text (classify (js_int payoff) s1).2])
       /\ innerHTML (elements p2' "result-box") !! 0%nat
          = innerHTML (elements p1' "result-box") !! 0%nat.
Proof.
  intros _ Hp1 Hd1 Hp2 Hd2.
  assert (classify (js_int payoff) s1 = classify (js_int payoff) s2) as Heq.
  { unfold classify. by rewrite Hp1, Hd1, Hp2, Hd2. }
  split_and!; [done | apply classify_cases |].
  destruct (displayResult_run (js_int payoff) s1 p1) as (p1' & R1 & C1 & H1 & _).
  destruct (displayResult_run (js_int payoff) s2 p2) as (p2' & R2 & C2 & H2 & _).
  exists p1', p2'. rewrite R1, R2, C1, C2, H1, H2, Heq. by split_and!.
Qed.

Lemma displayResult_total_deterministic_witness :
  classify (js_int (-1)) (summary_with (JBool true) (JBool false))
  = classify (js_int (-1)) (Summary.mk "NAIVE" (js_int 3) 25 12 (JBool true) (JBool false)).
Proof.
  exact (proj1 (displayResult_total_deterministic (-1) true false
     (summary_with (JBool true) (JBool false))
     (Summary.mk "NAIVE" (js_int 3) 25 12 (JBool true) (JBool false))
     blank_page blank_page
     (or_intror (or_introl eq_refl)) eq_refl eq_refl eq_refl eq_refl)).
Defined.

(** C10. A payoff that is neither [=== 1] nor [=== -1], whatever value it
    is, is classified as PUSH; and for every payoff and summary the result
    is one of the script's results, never the empty initial class and text. *)
Theorem classify_other_payoff_is_push (payoff : js_value) (summary : Summary.t) :
  (strict_eq payoff (js_int 1) = false -> strict_eq payoff (js_int (-1)) = false ->
   classify payoff summary = outcome_table PUSH)
  /\ classify payoff summary ∈ results
  /\ classify payoff summary <> ("", "").
Proof.
  split_and!.
  - intros H1 H2. unfold classify. by rewrite H1, H2.
  - apply classify_cases.
  - pose proof (classify_cases payoff summary) as H. unfold results in H.
    rewrite !elem_of_cons, elem_of_nil in H.
    destruct H as [->|[->|[->|[->|[->|[]]]]]]; by cbn.
Qed.

Lemma classify_other_payoff_is_push_witness :
  classify JNull (summary_with (JBool true) (JBool true)) = outcome_table PUSH
  /\ classify (js_int 2) (summary_with (JBool false) (JBool true)) = outcome_table PUSH
  /\ classify (JStr "1") (summary_with (JBool false) (JBool false)) = outcome_table PUSH
  /\ classify (JNum S754_nan) (summary_with JUndefined JNull) = outcome_table PUSH.
Proof.
  split_and!.
  - exact (proj1 (classify_other_payoff_is_push JNull _) eq_refl eq_refl).
  - exact (proj1 (classify_other_payoff_is_push (js_int 2) _) eq_refl eq_refl).
  - exact (proj1 (classify_other_payoff_is_push (JStr "1") _) eq_refl eq_refl).
  - exact (proj1 (classify_other_payoff_is_push (JNum S754_nan) _) eq_refl eq_refl).
Defined.

(** ** Frame lemmas for the page monad *)

Lemma bind_run {A B : Type} (m : M A) (f : A -> M B) (p : page) :
  (m ≫= f) p = match m p with
               | (Ok a, p') => f a p'
               | (Throw e, p') => (Throw e, p')
               end.
Proof. reflexivity. Qed.

Section Frame.
Context {B : Type} (ids : list string) (part : page -> B).

Lemma writes_only_ret {A : Type} (a : A) : writes_only ids (mret a).
Proof. by intros p id _. Qed.

Lemma writes_only_throw {A : Type} (e : string) : writes_only ids (@throw A e).
Proof. by intros p id _. Qed.

Lemma writes_only_get {A : Type} (f : page -> A) : writes_only ids (get f).
Proof. by intros p id _. Qed.

Lemma writes_only_bind {A C : Type} (m : M A) (f : A -> M C) :
  writes_only ids m -> (forall a, writes_only ids (f a)) -> writes_only ids (m ≫= f).
Proof.
  intros Hm Hf p id Hid. rewrite bind_run. specialize (Hm p id Hid).
  destruct (m p) as [[a|e] p']; cbn in *; [|done].
  by rewrite (Hf a p' id Hid).
Qed.

Lemma writes_only_update (id : string) (f : element -> element) :
  id ∈ ids -> writes_only ids (update id f).
Proof.
  intros Hin p id' Hid'. cbn. rewrite fn_lookup_insert_ne; [done|].
  intros ->. by apply Hid'.
Qed.

Lemma writes_only_appendChild (id : string) (child : html) :
  id ∈ ids -> writes_only ids (appendChild id child).
Proof. apply writes_only_update. Qed.

Lemma writes_only_alert (message : string) : writes_only ids (alert message).
Proof. by intros p id _. Qed.

Lemma writes_only_console_error (args : list string) : writes_only ids (console_error args).
Proof. by intros p id _. Qed.

Lemma writes_only_property {A : Type} (o : option A) (name : string) :
  writes_only ids (property o name).
Proof. destruct o; by intros p id _. Qed.

Lemma writes_only_await {D : Type} (r : reply D) : writes_only ids (await r).
Proof. destruct r; by intros p id _. Qed.

Lemma writes_only_forEach {A : Type} (l : list A) (f : A -> M unit) :
  (forall a, writes_only ids (f a)) -> writes_only ids (forEach l f).
Proof.
  intros Hf. induction l as [|a l IH]; cbn [forEach].
  - apply writes_only_ret.
  - apply writes_only_bind; [apply Hf | by intros _].
Qed.

Lemma writes_only_try_catch_finally (body : M unit) (handler : string -> M unit)
    (finalizer : M unit) :
  writes_only ids body -> (forall e, writes_only ids (handler e)) ->
  writes_only ids finalizer ->
  writes_only ids (try_catch_finally body handler finalizer).
Proof.
  intros Hb Hh Hf p id Hid. unfold try_catch_finally.
  specialize (Hb p id Hid). destruct (body p) as [[[]|e] p0]; cbn in Hb.
  - specialize (Hf p0 id Hid). destruct (finalizer p0) as [[[]|e'] p2]; cbn in *; congruence.
  - specialize (Hh e p0 id Hid). destruct (handler e p0) as [r p1]; cbn in Hh.
    specialize (Hf p1 id Hid). destruct (finalizer p1) as [[[]|e'] p2]; cbn in *; congruence.
Qed.

Lemma keeps_ret {A : Type} (a : A) : keeps part (mret a).
Proof. by intros p. Qed.

Lemma keeps_throw {A : Type} (e : string) : keeps part (@throw A e).
Proof. by intros p. Qed.

Lemma keeps_get {A : Type} (f : page -> A) : keeps part (get f).
Proof. by intros p. Qed.

Lemma keeps_property {A : Type} (o : option A) (name : string) :
  keeps part (property o name).
Proof. destruct o; by intros p. Qed.

Lemma keeps_await {D : Type} (r : reply D) : keeps part (await r).
Proof. destruct r; by intros p. Qed.

Lemma keeps_bind {A C : Type} (m : M A) (f : A -> M C) :
  keeps part m -> (forall a, keeps part (f a)) -> keeps part (m ≫= f).
Proof.
  intros Hm Hf p. rewrite bind_run. specialize (Hm p).
  destruct (m p) as [[a|e] p']; cbn in *; [|done].
  by rewrite (Hf a p').
Qed.

Lemma keeps_forEach {A : Type} (l : list A) (f : A -> M unit) :
  (forall a, keeps part (f a)) -> keeps part (forEach l f).
Proof.
  intros Hf. induction l as [|a l IH]; cbn [forEach].
  - apply keeps_ret.
  - apply keeps_bind; [apply Hf | by intros _].
Qed.

Lemma keeps_try_catch_finally (body : M unit) (handler : string -> M unit)
    (finalizer : M unit) :
  keeps part body -> (forall e, keeps part (handler e)) -> keeps part finalizer ->
  keeps part (try_catch_finally body handler finalizer).
Proof.
  intros Hb Hh Hf p. unfold try_catch_finally.
  specialize (Hb p). destruct (body p) as [[[]|e] p0]; cbn in Hb.
  - specialize (Hf p0). destruct (finalizer p0) as [[[]|e'] p2]; cbn in *; congruence.
  - specialize (Hh e p0). destruct (handler e p0) as [r p1]; cbn in Hh.
    specialize (Hf p1). destruct (finalizer p1) as [[[]|e'] p2]; cbn in *; congruence.
Qed.
End Frame.

Lemma writes_only_modify (ids : list string) (f : page -> page) :
  (forall p, elements (f p) = elements p) -> writes_only ids (modify f).
Proof. intros Hf p id _. cbn. by rewrite Hf. Qed.

Lemma keeps_modify {B : Type} (part : page -> B) (f : page -> page) :
  (forall p, part (f p) = part p) -> keeps part (modify f).
Proof. intros Hf p. cbn. by rewrite Hf. Qed.

(** Goals [writes_only ids m] and [keeps part m], by the structure of [m]. *)
Ltac frame :=
  repeat first
    [ progress intros
    | apply writes_only_bind | apply keeps_bind
    | apply writes_only_ret | apply keeps_ret
    | apply writes_only_throw | apply keeps_throw
    | apply writes_only_get | apply keeps_get
    | apply writes_only_property | apply keeps_property
    | apply writes_only_await | apply keeps_await
    | apply writes_only_alert | apply writes_only_console_error
    | apply writes_only_forEach | apply keeps_forEach
    | apply writes_only_try_catch_finally | apply keeps_try_catch_finally
    | apply writes_only_appendChild; in_list
    | apply writes_only_update; in_list
    | apply writes_only_modify; done
    | apply keeps_modify; done
    | match goal with
      | |- writes_only _ (if ?b then _ else _) => destruct b
      | |- keeps _ (if ?b then _ else _) => destruct b
      | |- writes_only _ (match ?x with _ => _ end) => destruct x
      | |- keeps _ (match ?x with _ => _ end) => destruct x
      end ].

Lemma displayHand_writes (data : hand_data) (agentId : string) :
  writes_only hand_view_ids (displayHand data agentId).
Proof.
  unfold displayHand, displayGameTable, displayResult, displayTrace, hand_view_ids. frame.
Qed.

Lemma playHand_resume_writes (r : reply hand_data) :
  writes_only hand_ids (playHand_resume r).
Proof.
  unfold playHand_resume, displayHand, displayGameTable, displayResult, displayTrace,
    hand_ids, hand_view_ids.
  cbn [app]. frame.
Qed.

Lemma playHand_begin_writes : writes_only ["play-btn"; "loading"] playHand_begin.
Proof. unfold playHand_begin. frame. Qed.

Lemma displayTournamentResults_writes (results : option (option Stats.t * option Stats.t)) :
  writes_only tournament_ids (displayTournamentResults results).
Proof.
  unfold displayTournamentResults, results_entry, avg_return_text, tournament_ids. frame.
Qed.

Lemma runTournament_resume_writes (r : reply match_data) :
  writes_only tournament_ids (runTournament_resume r).
Proof.
  unfold runTournament_resume, displayTournamentResults, results_entry, avg_return_text,
    tournament_ids.
  frame.
Qed.

Lemma runTournament_begin_writes :
  writes_only ["run-tournament-btn"; "tournament-loading"] runTournament_begin.
Proof. unfold runTournament_begin. frame. Qed.

Ltac not_in_list :=
  let H := fresh in
  intros H; rewrite !elem_of_cons, elem_of_nil in H;
  repeat (destruct H as [H|H]; [discriminate H|]); exact H.

Lemma keeps_try_catch {B : Type} (part : page -> B) (body : M unit)
    (handler : string -> M unit) :
  keeps part body -> (forall e, keeps part (handler e)) ->
  keeps part (try_catch body handler).
Proof.
  intros Hb Hh p. unfold try_catch. specialize (Hb p).
  destruct (body p) as [[[]|e] p0]; cbn in Hb; [done|].
  by rewrite (Hh e p0).
Qed.

Lemma loadAgents_resume_keeps_elements (r : reply agents_data) :
  keeps elements (loadAgents_resume r).
Proof. unfold loadAgents_resume. apply keeps_try_catch; frame. Qed.

Lemma selectAgent_keeps_elements (agentId agentName : string) :
  keeps elements (selectAgent agentId agentName).
Proof. unfold selectAgent. frame. Qed.

Lemma agent_card_click_keeps_elements (i : nat) : keeps elements (agent_card_click i).
Proof. unfold agent_card_click, selectAgent. frame. Qed.

Lemma showTab_keeps_elements (tabName : option string) : keeps elements (showTab tabName).
Proof. unfold showTab. frame. Qed.

Lemma tab_btn_click_keeps_elements (t : nat) : keeps elements (tab_btn_click t).
Proof.
  intros p. unfold tab_btn_click. destruct (tabs p !! t) as [btn|]; [|done].
  destruct (matches "tab-btn" btn); [|done].
  pose proof (showTab_keeps_elements (te_data_tab btn) (with_event (Some t) p)) as H.
  by destruct (showTab (te_data_tab btn) (with_event (Some t) p)) as [r p'].
Qed.

(** Runs the steps of a function of the page monad. *)
Ltac run :=
  cbv [playHand_begin runTournament_begin mbind M_bind mret M_ret get modify update
       appendChild alert console_error throw await property].

(** ** The scoped release of the controls *)

(** A [finally] that re-enables the control does so however the body and
    the handler end. *)
Lemma finally_releases (btn loading : string) (body : M unit) (handler : string -> M unit)
    (p : page) :
  btn <> loading ->
  disabled (elements
    (try_catch_finally body handler
       (update btn (set_disabled false) ;; update loading (set_display "none")) p).2 btn)
  = false.
Proof.
  intros Hne. unfold try_catch_finally.
  destruct (body p) as [[[]|e] p0].
  - rewrite bind_run. unfold update, modify. cbn.
    by rewrite fn_lookup_insert_ne, fn_lookup_insert.
  - destruct (handler e p0) as [r p1]. rewrite bind_run. unfold update, modify. cbn.
    by rewrite fn_lookup_insert_ne, fn_lookup_insert.
Qed.

Lemma playHand_resume_releases (r : reply hand_data) (p : page) :
  disabled (elements (playHand_resume r p).2 "play-btn") = false.
Proof. unfold playHand_resume. by apply finally_releases. Qed.

Lemma runTournament_resume_releases (r : reply match_data) (p : page) :
  disabled (elements (runTournament_resume r p).2 "run-tournament-btn") = false.
Proof. unfold runTournament_resume. by apply finally_releases. Qed.

Lemma playHand_begin_acquires (p : page) :
  exists req p', playHand_begin p = (Ok req, p')
    /\ disabled (elements p' "play-btn") = true.
Proof.
  eexists _, _. split; [by run|]. cbn. by rewrite fn_lookup_insert_ne, fn_lookup_insert.
Qed.

Lemma runTournament_begin_acquires (p : page) :
  exists req p', runTournament_begin p = (Ok req, p')
    /\ disabled (elements p' "run-tournament-btn") = true.
Proof.
  eexists _, _. split; [by run|]. cbn. by rewrite fn_lookup_insert_ne, fn_lookup_insert.
Qed.

Lemma world_step_invariant (w w' : world) :
  lock_invariant w -> world_step w w' -> lock_invariant w'.
Proof.
  intros [Hh Hm] Hstep. unfold lock_invariant.
  destruct Hstep as [w _|w r _|w _|w r _|w r|w i|w t]; cbn [pg hand_pending match_pending handle].
  - destruct (playHand_begin_acquires (pg w)) as (req & p' & Hrun & Hdis).
    pose proof (playHand_begin_writes (pg w) "run-tournament-btn") as Hframe.
    rewrite bind_run. rewrite Hrun in *. cbn in *. split; [done|].
    rewrite Hframe; [done|not_in_list].
  - split; [apply playHand_resume_releases|].
    rewrite (playHand_resume_writes r (pg w) "run-tournament-btn"); [done|].
    unfold hand_ids, hand_view_ids. cbn [app]. not_in_list.
  - destruct (runTournament_begin_acquires (pg w)) as (req & p' & Hrun & Hdis).
    pose proof (runTournament_begin_writes (pg w) "play-btn") as Hframe.
    rewrite bind_run. rewrite Hrun in *. cbn in *. split; [|done].
    rewrite Hframe; [done|not_in_list].
  - split; [|apply runTournament_resume_releases].
    rewrite (runTournament_resume_writes r (pg w) "play-btn"); [done|].
    unfold tournament_ids. not_in_list.
  - by rewrite (loadAgents_resume_keeps_elements r (pg w)).
  - by rewrite (agent_card_click_keeps_elements i (pg w)).
  - by rewrite (tab_btn_click_keeps_elements t (pg w)).
Qed.

(** C5. In every world the page can reach, the play button is disabled
    exactly while a play-hand call is in flight and the tournament button
    exactly while a match call is in flight: a control is disabled from the
    click to the moment its call settles, and whichever way the call settles
    (a success, a body that says success is false, a body the rendering
    fails on, a rejected fetch or body), the [finally] block enables it
    again. *)
Theorem controls_locked_while_in_flight (w : world) :
  reachable w -> lock_invariant w.
Proof.
  induction 1 as [p Hp Hr|w w' _ IH Hstep].
  - by split.
  - by apply (world_step_invariant w w').
Qed.

Lemma world_settled_reachable : reachable world_in_flight /\ reachable world_settled.
Proof.
  assert (reachable world_in_flight) as H.
  { apply (reachable_step world_loaded); [by apply reachable_loaded|].
    by apply (step_play world_loaded). }
  split; [done|].
  apply (reachable_step world_in_flight); [done|].
  by apply (step_hand world_in_flight).
Qed.

Lemma controls_locked_while_in_flight_witness :
  disabled (elements (pg world_in_flight) "play-btn") = true
  /\ disabled (elements (pg world_settled) "play-btn") = false.
Proof.
  split.
  - exact (proj1 (controls_locked_while_in_flight world_in_flight
                    (proj1 world_settled_reachable))).
  - exact (proj1 (controls_locked_while_in_flight world_settled
                    (proj2 world_settled_reachable))).
Defined.

(** ** Failures of playHand *)

(** C4, as the script has it. On every failure of a play-hand call the
    script raises exactly one notification: the fixed text "Failed to play
    hand" when the fetch rejects or the body does not parse (the error itself
    goes to the console), and "Error playing hand: " followed by the error
    string of the body when the body says success is false. Nothing of the
    page is changed but the play button, enabled again, and the loading
    indicator, hidden again: game content, welcome message and the rendered
    hand are as they were before the call. *)
Theorem playHand_failure_notifies (r : reply hand_data) (notification : string) (p : page) :
  hand_failure r notification ->
  exists p',
    playHand_resume r p = (Ok tt, p')
    /\ alerts p' = alerts p ++ [notification]
    /\ (forall id, id <> "play-btn" -> id <> "loading" -> elements p' id = elements p id)
    /\ display (elements p' "game-content") = display (elements p "game-content")
    /\ display (elements p' "welcome-message") = display (elements p "welcome-message")
    /\ disabled (elements p' "play-btn") = false
    /\ display (elements p' "loading") = "none"
    /\ (selectedAgent p', agent_cards p', tabs p', event p')
       = (selectedAgent p, agent_cards p, tabs p, event p).
Proof.
  intros Hfail.
  assert (exists p', playHand_resume r p = (Ok tt, p')
            /\ alerts p' = alerts p ++ [notification]
            /\ elements p' = <["loading" := set_display "none"
                  ((<["play-btn" := set_disabled false (elements p "play-btn")]> (elements p))
                     "loading")]>
                 (<["play-btn" := set_disabled false (elements p "play-btn")]> (elements p))
            /\ (selectedAgent p', agent_cards p', tabs p', event p')
               = (selectedAgent p, agent_cards p, tabs p, event p)) as (p' & Hrun & Ha & He & Hrest).
  { destruct Hfail as [e|e|d message Hs Herr].
    - by eexists.
    - by eexists.
    - eexists. unfold playHand_resume, try_catch_finally. rewrite bind_run.
      cbn [await mret M_ret]. rewrite Hs. cbn [truthy].
      unfold concat_property. rewrite Herr. by split_and!. }
  exists p'. rewrite Hrun, Ha, He, Hrest.
  split_and!; try done.
  - intros id H1 H2. by rewrite !fn_lookup_insert_ne.
Qed.

Lemma playHand_failure_notifies_witness :
  exists p',
    playHand_resume (Parsed (service_error "Unknown agent")) played_page = (Ok tt, p')
    /\ alerts p' = alerts played_page ++ ["Error playing hand: Unknown agent"]
    /\ (forall id, id <> "play-btn" -> id <> "loading" ->
        elements p' id = elements played_page id)
    /\ display (elements p' "game-content") = display (elements played_page "game-content")
    /\ display (elements p' "welcome-message")
       = display (elements played_page "welcome-message")
    /\ disabled (elements p' "play-btn") = false
    /\ display (elements p' "loading") = "none"
    /\ (selectedAgent p', agent_cards p', tabs p', event p')
       = (selectedAgent played_page, agent_cards played_page, tabs played_page,
          event played_page).
Proof.
  exact (playHand_failure_notifies (Parsed (service_error "Unknown agent")) _ played_page
           (hand_service_error (service_error "Unknown agent") "Unknown agent"
              eq_refl eq_refl)).
Defined.

(** C4 as it is stated fails: the error string of a rejected fetch is not
    what the user is shown, and the error string of the service is shown
    behind a prefix. *)
Lemma playHand_failure_counterexample :
  error_string (FetchRejected "Failed to fetch") = Some "Failed to fetch"
  /\ alerts (playHand_resume (FetchRejected "Failed to fetch") played_page).2
     = ["Failed to play hand"]
  /\ console (playHand_resume (FetchRejected "Failed to fetch") played_page).2
     = [["Error:"; "Failed to fetch"]]
  /\ alerts (playHand_resume (FetchRejected "Failed to fetch") played_page).2
     <> ["Failed to fetch"]
  /\ alerts (playHand_resume (Parsed (service_error "Unknown agent")) played_page).2
     <> ["Unknown agent"].
Proof. split_and!; by vm_compute. Qed.

(** ** Numbers read from and written to text *)

Lemma parse_digits_acc (d : uint) (acc : positive) :
  parse_digits 10 (NilEmpty.string_of_uint d) (Some (Z.pos acc))
  = Some (Z.pos (Pos.of_uint_acc d acc)).
Proof.
  revert acc.
  induction d as [|d IH|d IH|d IH|d IH|d IH|d IH|d IH|d IH|d IH|d IH]; intros acc;
    cbn [NilEmpty.string_of_uint Pos.of_uint_acc parse_digits]; [done|..];
    match goal with
    | |- context [digit_value 10 ?c] =>
        change (digit_value 10 c) with (Some (Z.of_N (N_of_ascii c) - 48))
    end;
    cbn [default]; rewrite <- IH; f_equal; f_equal; cbn; lia.
Qed.

Lemma parse_digits_zero (d : uint) :
  parse_digits 10 (NilEmpty.string_of_uint d) (Some 0) = Some (Z.of_N (Pos.of_uint d)).
Proof.
  induction d as [|d IH|d IH|d IH|d IH|d IH|d IH|d IH|d IH|d IH|d IH];
    cbn [NilEmpty.string_of_uint Pos.of_uint parse_digits]; [done|..];
    match goal with
    | |- context [digit_value 10 ?c] =>
        change (digit_value 10 c) with (Some (Z.of_N (N_of_ascii c) - 48))
    end;
    cbn [default]; [exact IH|..]; cbn [Z.of_N]; rewrite <- parse_digits_acc; f_equal.
Qed.

Lemma parse_digits_start (d : uint) :
  d <> Nil ->
  parse_digits 10 (NilEmpty.string_of_uint d) None = Some (Z.of_N (Pos.of_uint d)).
Proof.
  intros Hd. rewrite <- parse_digits_zero. by destruct d.
Qed.

Lemma parseInt_uint (d : uint) :
  d <> Nil ->
  parseInt (NilEmpty.string_of_uint d)
  = match Z.of_N (Pos.of_uint d) with 0 => S754_zero false | n => f64_of_Z n end
  /\ parseInt (String "-" (NilEmpty.string_of_uint d))
    = match Z.of_N (Pos.of_uint d) with 0 => S754_zero true | n => f64_of_Z (- n) end.
Proof.
  intros Hd.
  assert (parseInt (NilEmpty.string_of_uint d)
          = match parse_digits 10 (NilEmpty.string_of_uint d) None with
            | None => S754_nan
            | Some 0 => S754_zero false
            | Some n => f64_of_Z n
            end
          /\ parseInt (String "-" (NilEmpty.string_of_uint d))
            = match parse_digits 10 (NilEmpty.string_of_uint d) None with
              | None => S754_nan
              | Some 0 => S754_zero true
              | Some n => f64_of_Z (- n)
              end) as [-> ->].
  { destruct d as [|d|d|d|d|d|d|d|d|d|d]; try done. by destruct d. }
  rewrite (parse_digits_start d Hd). by destruct (Z.of_N (Pos.of_uint d)).
Qed.

Lemma parseInt_Z_to_string (n : Z) :
  n <> 0 -> parseInt (Z_to_string n) = f64_of_Z n.
Proof.
  intros Hn. unfold Z_to_string.
  destruct n as [|p|p]; [done|..]; cbn [Z.to_int NilZero.string_of_int];
    pose proof (DecimalPos.Unsigned.to_uint_nonnil p) as Hnil;
    unfold NilZero.string_of_uint;
    destruct (Pos.to_uint p) eqn:Hd; try done;
    rewrite <- Hd in *.
  all: first [ rewrite (proj1 (parseInt_uint _ Hnil)) | rewrite (proj2 (parseInt_uint _ Hnil)) ];
    by rewrite DecimalPos.Unsigned.of_to.
Qed.

Lemma digits2_pos_iter (p k : positive) :
  digits2_pos (Pos.iter xO p k) = (digits2_pos p + k)%positive.
Proof.
  induction k as [|k IH] using Pos.peano_ind.
  - cbn. lia.
  - rewrite Pos.iter_succ. cbn [digits2_pos]. rewrite IH. lia.
Qed.

Lemma iter_xO_value (p k : positive) :
  Z.pos (Pos.iter xO p k) = Z.pos p * 2 ^ Z.pos k.
Proof.
  induction k as [|k IH] using Pos.peano_ind.
  - cbn. lia.
  - rewrite Pos.iter_succ. change (Z.pos (Pos.iter xO p k)~0) with (2 * Z.pos (Pos.iter xO p k)).
    rewrite IH, Pos2Z.inj_succ, Z.pow_succ_r; lia.
Qed.

Lemma digits2_pos_bounds (p : positive) :
  2 ^ (Z.pos (digits2_pos p) - 1) <= Z.pos p < 2 ^ Z.pos (digits2_pos p).
Proof.
  induction p as [p IH|p IH|]; cbn [digits2_pos]; [| |by cbn].
  all: rewrite Pos2Z.inj_succ;
    replace (Z.succ (Z.pos (digits2_pos p)) - 1) with (Z.succ (Z.pos (digits2_pos p) - 1)) by lia;
    rewrite !Z.pow_succ_r by lia;
    revert IH; generalize (2 ^ (Z.pos (digits2_pos p) - 1)), (2 ^ Z.pos (digits2_pos p)); lia.
Qed.

Lemma digits2_pos_small (p : positive) :
  Z.pos p < 2 ^ 53 -> Z.pos (digits2_pos p) <= 53.
Proof.
  intros Hp. destruct (Z.le_gt_cases (Z.pos (digits2_pos p)) 53) as [|Hgt]; [done|].
  pose proof (digits2_pos_bounds p) as [Hlo _].
  assert (2 ^ 53 <= 2 ^ (Z.pos (digits2_pos p) - 1)) by (apply Z.pow_le_mono_r; lia).
  lia.
Qed.

Lemma binary_round_aux_canonical (s : bool) (m : positive) (e : Z) :
  Z.pos (digits2_pos m) = 53 -> -1074 <= e <= 971 ->
  binary_round_aux 53 1024 s (Z.pos m) e loc_Exact = S754_finite s m e.
Proof.
  intros Hd He. unfold binary_round_aux, shr_fexp, fexp, emin. cbn [Zdigits2 shr_record_of_loc].
  rewrite Hd. replace (Z.max (53 + e - 53) (3 - 1024 - 53)) with e by lia.
  rewrite Z.sub_diag. cbn [shr shr_m round_nearest_even loc_of_shr_record Zdigits2].
  rewrite Hd. replace (Z.max (53 + e - 53) (3 - 1024 - 53)) with e by lia.
  rewrite Z.sub_diag. cbn [shr shr_m].
  replace (e <=? 1024 - 53) with true; [done|]. symmetry. apply Z.leb_le. lia.
Qed.

Lemma f64_of_pos_exact (s : bool) (p : positive) :
  Z.pos p < 2 ^ 53 ->
  exists m e, binary_round 53 1024 s p 0 = S754_finite s m e
    /\ -52 <= e <= 0 /\ Z.pos m = Z.pos p * 2 ^ (- e).
Proof.
  intros Hp. pose proof (digits2_pos_small p Hp) as Hd.
  unfold binary_round, shl_align, fexp, emin.
  replace (Z.max (Z.pos (digits2_pos p) + 0 - 53) (3 - 1024 - 53))
    with (Z.pos (digits2_pos p) - 53) by lia.
  rewrite Z.sub_0_r.
  destruct (Z.pos (digits2_pos p) - 53) as [|k|k] eqn:Hk; [|lia|].
  - exists p, 0. rewrite binary_round_aux_canonical by lia. split_and!; try lia. done.
  - exists (Pos.iter xO p k), (Z.neg k).
    rewrite binary_round_aux_canonical.
    + split_and!; try lia; [done|]. by rewrite iter_xO_value.
    + rewrite digits2_pos_iter. lia.
    + lia.
Qed.

Lemma f64_of_Z_exact (n : Z) :
  n <> 0 -> - 2 ^ 53 < n < 2 ^ 53 ->
  f64_to_Z (f64_of_Z n) = Some n
  /\ truthy (JNum (f64_of_Z n)) = true
  /\ json_value (JNum (f64_of_Z n)) = JNum (f64_of_Z n).
Proof.
  intros Hn Hb. unfold f64_of_Z, binary_normalize.
  destruct n as [|p|p]; [done|..].
  - destruct (f64_of_pos_exact false p) as (m & e & -> & He & Hm); [lia|].
    split_and!; try done. cbn [f64_to_Z]. rewrite Hm.
    destruct (Z.leb_spec 0 e).
    + replace e with 0 by lia. cbn [fmap option_fmap option_map]. f_equal. cbn. lia.
    + rewrite Z.mod_mul, Z.eqb_refl, Z.div_mul by lia. done.
  - destruct (f64_of_pos_exact true p) as (m & e & -> & He & Hm); [lia|].
    split_and!; try done. cbn [f64_to_Z]. rewrite Hm.
    destruct (Z.leb_spec 0 e).
    + replace e with 0 by lia. cbn [fmap option_fmap option_map]. f_equal. cbn. lia.
    + rewrite Z.mod_mul, Z.eqb_refl, Z.div_mul by lia. done.
Qed.

(** ** The tournament request *)





(** ** The tournament's win rate *)

(** C3. For 423 wins in 1000 hands the win rate is rendered 42.3%, with one
    decimal place; for 0 wins in 0 hands the script divides zero by zero and
    renders NaN%, where the specification asks for a fallback. *)
Theorem winRate_rendering :
  winRate (stats_of 1000 423) +:+ "%" = "42.3%"
  /\ winRate (stats_of 0 0) +:+ "%" = "NaN%"
  /\ (exists card other p',
        displayTournamentResults (Some (Some (stats_of 0 0), Some (stats_of 1000 423)))
          blank_page = (Ok tt, p')
        /\ innerHTML (elements p' "results-grid") = [card; other]
        /\ html_text card = "EVTotal Hands:0Wins:0Losses:0Pushes:0Win Rate:NaN%Avg Return:0.0150").
Proof.
  split_and!; [by vm_compute | by vm_compute |].
  eexists _, _, _. split_and!; [by vm_compute | by vm_compute | by vm_compute].
Qed.

(** ** The agent selector *)

Lemma classList_contains_add (c : string) (l : list string) :
  classList_contains c (classList_add c l) = true.
Proof.
  unfold classList_add. destruct (classList_contains c l) eqn:H; [done|].
  apply bool_decide_eq_true. apply elem_of_app. right. by apply list_elem_of_singleton.
Qed.

Lemma classList_contains_remove (c : string) (l : list string) :
  classList_contains c (classList_remove c l) = false.
Proof.
  apply bool_decide_eq_false. unfold classList_remove. rewrite list_elem_of_filter. tauto.
Qed.

Lemma classList_contains_toggle (c : string) (force : bool) (l : list string) :
  classList_contains c (classList_toggle c force l) = force.
Proof.
  destruct force; [apply classList_contains_add | apply classList_contains_remove].
Qed.

Lemma loadAgents_forEach (agents : list Agent.t) (p : page) :
  forEach agents (fun agent =>
    modify (fun p => with_agent_cards (agent_cards p ++ [new_agent_card agent]) p)) p
  = (Ok tt, with_agent_cards (agent_cards p ++ (new_agent_card <$> agents)) p).
Proof.
  revert p. induction agents as [|a agents IH]; intros p; cbn [forEach fmap list_fmap].
  - rewrite app_nil_r. by destruct p.
  - rewrite bind_run. cbn [modify]. rewrite IH. cbn. by rewrite <- app_assoc.
Qed.

Lemma loaded_cards (catalog : list Agent.t) (p : page) :
  loaded catalog p = with_agent_cards (new_agent_card <$> catalog) p.
Proof.
  unfold loaded, loadAgents_resume, try_catch. rewrite bind_run. cbn [await mret M_ret].
  rewrite bind_run. cbn [modify]. rewrite bind_run. cbn [property ad_agents mret M_ret].
  by rewrite loadAgents_forEach.
Qed.

Lemma selectAgent_cards (agentId agentName : string) (p : page) (i : nat) :
  selectAgent agentId agentName p
    = (Ok tt, with_agent_cards (agent_cards (selectAgent agentId agentName p).2)
                (with_selectedAgent agentId p))
  /\ forall card, agent_cards p !! i = Some card ->
     exists card', agent_cards (selectAgent agentId agentName p).2 !! i = Some card'
       /\ is_selected card'
          = (Nat.eqb i 0 && String.eqb agentId "EV") || (Nat.eqb i 1 && String.eqb agentId "NAIVE")
       /\ ac_onclick card' = ac_onclick card
       /\ ac_innerHTML card' = ac_innerHTML card.
Proof.
  split; [done|]. intros card Hcard. unfold selectAgent. rewrite bind_run.
  cbn [modify snd agent_cards with_agent_cards with_selectedAgent].
  rewrite list_lookup_imap, Hcard. cbn -[classList_toggle].
  eexists. split; [done|]. split_and!; try done.
  unfold is_selected. cbn -[classList_toggle]. apply classList_contains_toggle.
Qed.

Lemma filter_ext_in {A : Type} (P Q : A -> Prop) `{!forall x, Decision (P x)}
    `{!forall x, Decision (Q x)} (l : list A) :
  (forall x, x ∈ l -> P x <-> Q x) -> filter P l = filter Q l.
Proof.
  induction l as [|x l IH]; intros Hext; [done|].
  rewrite !filter_cons.
  rewrite IH by (intros y Hy; apply Hext; by right).
  destruct (decide (P x)) as [HP|HP], (decide (Q x)) as [HQ|HQ]; try done.
  - destruct HQ. apply Hext; [by left|done].
  - destruct HP. apply Hext; [by left|done].
Qed.

Lemma filter_none {A : Type} (P : A -> Prop) `{!forall x, Decision (P x)} (l : list A) :
  (forall x, x ∈ l -> ~ P x) -> filter P l = [].
Proof.
  induction l as [|x l IH]; intros Hnone; [done|].
  rewrite filter_cons_False by (apply Hnone; by left).
  apply IH. intros y Hy. apply Hnone. by right.
Qed.

Ltac decide_all :=
  repeat match goal with |- context [decide ?P] => destruct (decide P) end;
  try discriminate; try congruence.

Lemma selected_after_select (catalog : list Agent.t) (p : page) (agentId agentName : string)
    (i : nat) :
  is_selected <$> agent_cards (selectAgent agentId agentName (loaded catalog p)).2 !! i
  = (fun _ => marks agentId i) <$> catalog !! i.
Proof.
  unfold selectAgent. rewrite bind_run.
  cbn [modify snd agent_cards with_agent_cards with_selectedAgent].
  rewrite list_lookup_imap, loaded_cards. cbn [agent_cards with_agent_cards].
  rewrite list_lookup_fmap. destruct (catalog !! i) as [agent|]; [|done].
  cbn -[classList_toggle]. f_equal. apply classList_contains_toggle.
Qed.

Lemma selected_indices_after_select (catalog : list Agent.t) (p : page)
    (agentId agentName : string) :
  selected_indices (selectAgent agentId agentName (loaded catalog p)).2
  = filter (fun i => marks agentId i = true) (seq 0 (length catalog)).
Proof.
  unfold selected_indices.
  assert (length (agent_cards (selectAgent agentId agentName (loaded catalog p)).2)
          = length catalog) as ->.
  { unfold selectAgent. rewrite bind_run.
    cbn [modify snd agent_cards with_agent_cards with_selectedAgent].
    rewrite length_imap, loaded_cards. cbn [agent_cards with_agent_cards].
    by rewrite length_fmap. }
  apply filter_ext_in. intros i Hi. rewrite selected_after_select.
  apply elem_of_seq in Hi as [_ Hi].
  destruct (lookup_lt_is_Some_2 catalog i) as [agent ->]; [lia|].
  cbn. split; [by intros [= ->] | by intros ->].
Qed.

Lemma selected_indices_loaded (catalog : list Agent.t) (p : page) :
  selected_indices (loaded catalog p)
  = filter (fun i => Agent.id <$> catalog !! i = Some "EV") (seq 0 (length catalog)).
Proof.
  unfold selected_indices. rewrite loaded_cards. cbn [agent_cards with_agent_cards].
  rewrite length_fmap. apply filter_ext_in. intros i Hi.
  rewrite list_lookup_fmap. destruct (catalog !! i) as [agent|]; [|done].
  cbn. unfold is_selected. cbn.
  destruct (String.eqb_spec (Agent.id agent) "EV") as [->|Hne]; cbn.
  - done.
  - split; [done|]. intros [= H]. by destruct Hne.
Qed.

(** C7, as the script has it. [selectAgent] overwrites the selected agent
    with the id it is given and marks cards by position: the first card when
    the id is EV, the second when it is NAIVE, and no other. So for every
    catalog at most one card is marked afterwards, and for a catalog that
    lists EV first and NAIVE second, selecting either of the two marks
    exactly one card, the card of the agent selected. At startup the cards
    marked are those of the agents whose id is EV, and the selected agent is
    left as it was, EV on the page as it starts. *)
Theorem selectAgent_marks_by_position (catalog : list Agent.t) (p : page)
    (agentId agentName : string) :
  selectedAgent (loaded catalog p) = selectedAgent p
  /\ selectedAgent (loaded catalog blank_page) = "EV"
  /\ selected_indices (loaded catalog p)
     = filter (fun i => Agent.id <$> catalog !! i = Some "EV") (seq 0 (length catalog))
  /\ (selectAgent agentId agentName (loaded catalog p)).1 = Ok tt
  /\ selectedAgent (selectAgent agentId agentName (loaded catalog p)).2 = agentId
  /\ selected_indices (selectAgent agentId agentName (loaded catalog p)).2
     = filter (fun i => marks agentId i = true) (seq 0 (length catalog))
  /\ (length (selected_indices (selectAgent agentId agentName (loaded catalog p)).2) <= 1)%nat
  /\ (Agent.id <$> catalog !! 0%nat = Some "EV" ->
      Agent.id <$> catalog !! 1%nat = Some "NAIVE" ->
      agentId = "EV" \/ agentId = "NAIVE" ->
      exists k agent,
        selected_indices (selectAgent agentId agentName (loaded catalog p)).2 = [k]
        /\ catalog !! k = Some agent /\ Agent.id agent = agentId).
Proof.
  assert (forall n, filter (fun i => marks agentId i = true) (seq 2 n) = []) as Hrest.
  { intros n. apply filter_none. intros i Hi. apply elem_of_seq in Hi as [Hi _].
    unfold marks. destruct i as [|[|i]]; [lia|lia|]. by cbn. }
  split_and!.
  - by rewrite loaded_cards.
  - by rewrite loaded_cards.
  - apply selected_indices_loaded.
  - done.
  - done.
  - apply selected_indices_after_select.
  - rewrite selected_indices_after_select.
    destruct catalog as [|a [|b catalog]]; [cbn; lia| |].
    + cbn [length seq]. rewrite filter_cons, filter_nil. decide_all; cbn; lia.
    + cbn [length seq]. rewrite !filter_cons, Hrest. unfold marks.
      destruct (String.eqb_spec agentId "EV") as [->|?]; cbn; [decide_all; cbn; lia|].
      destruct (String.eqb agentId "NAIVE"); decide_all; cbn; lia.
  - intros H0 H1 Hid. rewrite selected_indices_after_select.
    destruct catalog as [|a [|b catalog]]; [done|done|].
    cbn in H0, H1. injection H0 as H0. injection H1 as H1.
    cbn [length seq]. rewrite !filter_cons, Hrest. unfold marks.
    destruct Hid as [-> | ->]; cbn; decide_all.
    + by exists 0%nat, a.
    + by exists 1%nat, b.
Qed.

Lemma selectAgent_marks_by_position_witness :
  exists k agent,
    selected_indices (selectAgent "NAIVE" "Naive"
                        (loaded [agent_EV; agent_NAIVE; agent_RANDOM] blank_page)).2 = [k]
    /\ [agent_EV; agent_NAIVE; agent_RANDOM] !! k = Some agent
    /\ Agent.id agent = "NAIVE".
Proof.
  exact (proj2 (proj2 (proj2 (proj2 (proj2 (proj2 (proj2
    (selectAgent_marks_by_position [agent_EV; agent_NAIVE; agent_RANDOM] blank_page
       "NAIVE" "Naive")))))))
    eq_refl eq_refl (or_intror eq_refl)).
Defined.

(** C7 as it is stated fails. When the fetch lists NAIVE before EV,
    selecting EV marks the card of NAIVE; and selecting a third agent of the
    catalog marks no card at all. *)
Lemma selectAgent_counterexample :
  selected_indices (loaded [agent_NAIVE; agent_EV] blank_page) = [1%nat]
  /\ selected_indices (selectAgent "EV" "Expected Value"
                         (loaded [agent_NAIVE; agent_EV] blank_page)).2 = [0%nat]
  /\ (ac_onclick <$> agent_cards (selectAgent "EV" "Expected Value"
                         (loaded [agent_NAIVE; agent_EV] blank_page)).2 !! 0%nat)
     = Some ("NAIVE", "Naive")
  /\ selected_indices (agent_card_click 2
                         (loaded [agent_EV; agent_NAIVE; agent_RANDOM] blank_page)).2 = []
  /\ selectedAgent (agent_card_click 2
                      (loaded [agent_EV; agent_NAIVE; agent_RANDOM] blank_page)).2 = "RANDOM".
Proof. split_and!; by vm_compute. Qed.

(** ** Tab navigation *)

Lemma getElementById_fmap (id : string) (f : tab_element -> tab_element)
    (doc : list tab_element) :
  (forall el, te_id (f el) = te_id el) ->
  getElementById id (f <$> doc) = getElementById id doc.
Proof.
  intros Hid. unfold getElementById. rewrite list_find_fmap.
  rewrite (list_find_ext _ (fun el => te_id el = id)) by (intros el; cbn; by rewrite Hid).
  by destruct (list_find _ doc) as [[i el]|].
Qed.

Ltac steps :=
  repeat first
    [ rewrite bind_run
    | progress cbn [modify get mret M_ret property throw tabs with_tabs event with_event]
    | progress unfold modify, get ].

Lemma showTab_run (tabName : option string) (target : nat) (p : page) :
  event p = Some target ->
  showTab tabName p
  = (Ok tt, with_tabs
      (imap (shown (getElementById (default "null" tabName +:+ "-tab") (tabs p)) target)
            (tabs p)) p).
Proof.
  intros Hev. unfold showTab. steps.
  rewrite !getElementById_fmap by (intros el; unfold te_update; by repeat case_match).
  destruct (getElementById _ (tabs p)) as [i|]; steps; rewrite Hev; steps;
    unfold with_tabs; cbn; f_equal; f_equal; apply list_eq; intros j;
    rewrite list_lookup_imap, ?list_lookup_alter, ?list_lookup_fmap;
    unfold shown, deactivate;
    repeat case_decide; simplify_eq; try congruence;
    by destruct (tabs p !! j).
Qed.

Lemma tab_btn_click_run (t : nat) (btn : tab_element) (p : page) :
  tabs p !! t = Some btn -> matches "tab-btn" btn = true ->
  tab_btn_click t p
  = (Ok tt, with_tabs
      (imap (shown (getElementById (default "null" (te_data_tab btn) +:+ "-tab") (tabs p)) t)
            (tabs p)) p).
Proof.
  intros Hbtn Hcls. unfold tab_btn_click. rewrite Hbtn, Hcls.
  rewrite (showTab_run _ t) by done. by destruct p.
Qed.

Lemma contains_add_ne (c c' : string) (l : list string) :
  c' <> c -> classList_contains c' (classList_add c l) = classList_contains c' l.
Proof.
  intros Hne. unfold classList_add. destruct (classList_contains c l); [done|].
  unfold classList_contains. apply bool_decide_ext.
  rewrite elem_of_app, list_elem_of_singleton. tauto.
Qed.

Lemma contains_remove_ne (c c' : string) (l : list string) :
  c' <> c -> classList_contains c' (classList_remove c l) = classList_contains c' l.
Proof.
  intros Hne. unfold classList_contains, classList_remove. apply bool_decide_ext.
  rewrite list_elem_of_filter. tauto.
Qed.

Lemma remove_remove (c : string) (l : list string) :
  classList_remove c (classList_remove c l) = classList_remove c l.
Proof.
  unfold classList_remove. rewrite list_filter_filter. apply list_filter_iff. tauto.
Qed.

Lemma remove_add (c : string) (l : list string) :
  classList_remove c (classList_add c l) = classList_remove c l.
Proof.
  unfold classList_add. destruct (classList_contains c l); [done|].
  unfold classList_remove. rewrite list.filter_app, filter_cons_False, filter_nil by tauto.
  by rewrite app_nil_r.
Qed.

Lemma add_add (c : string) (l : list string) :
  classList_add c (classList_add c l) = classList_add c l.
Proof.
  unfold classList_add at 1. by rewrite classList_contains_add.
Qed.

Lemma marks_remove (l : list string) :
  length (filter (fun c => c = "active") (classList_remove "active" l)) = 0%nat.
Proof.
  unfold classList_remove. rewrite list_filter_filter.
  rewrite filter_none; [done|]. tauto.
Qed.

Lemma marks_add (l : list string) :
  (length (filter (fun c => c = "active") l) <= 1)%nat ->
  (length (filter (fun c => c = "active") (classList_add "active" l)) <= 1)%nat.
Proof.
  intros Hl. unfold classList_add. destruct (classList_contains "active" l) eqn:Hc; [done|].
  apply bool_decide_eq_false in Hc.
  rewrite list.filter_app, filter_cons_True, filter_nil by done.
  rewrite filter_none; [cbn; lia|]. by intros c Hin ->.
Qed.

(** Case analysis on the classes [showTab] tests and on the two indices. *)
Ltac shown_cases el :=
  unfold shown, deactivate, matches, te_update; cbn [te_classList te_id te_data_tab];
  destruct (classList_contains "tab-content" (te_classList el)) eqn:?;
  cbn [te_classList te_id te_data_tab];
  rewrite ?contains_remove_ne by done;
  destruct (classList_contains "tab-btn" (te_classList el)) eqn:?;
  cbn [te_classList te_id te_data_tab];
  repeat case_decide;
  cbn [te_classList te_id te_data_tab];
  rewrite ?contains_add_ne, ?contains_remove_ne by done.

Lemma shown_attributes (panel : option nat) (t j : nat) (el : tab_element) :
  te_id (shown panel t j el) = te_id el
  /\ te_data_tab (shown panel t j el) = te_data_tab el
  /\ matches "tab-content" (shown panel t j el) = matches "tab-content" el
  /\ matches "tab-btn" (shown panel t j el) = matches "tab-btn" el.
Proof. shown_cases el; by split_and!. Qed.

Lemma shown_active (panel : option nat) (t j : nat) (el : tab_element) :
  matches "tab-content" el || matches "tab-btn" el = true ->
  matches "active" (shown panel t j el) = bool_decide (panel = Some j \/ t = j)
  /\ (active_marks (shown panel t j el) <= 1)%nat.
Proof.
  unfold active_marks.
  shown_cases el; intros Hcls; try done;
    rewrite ?remove_remove, ?add_add;
    (split;
     [ rewrite ?classList_contains_add, ?classList_contains_remove; symmetry;
       first [ apply bool_decide_eq_true; tauto | apply bool_decide_eq_false; tauto ]
     | repeat apply marks_add; rewrite ?marks_remove; lia ]).
Qed.

Lemma shown_normal (panel : option nat) (t j : nat) (el : tab_element) :
  shown panel t j el
  = {| te_id := te_id el; te_classList := shown_classList panel t j el;
       te_data_tab := te_data_tab el |}.
Proof.
  unfold shown_classList.
  shown_cases el; rewrite ?remove_remove, ?add_add; cbn [orb];
    first [ rewrite bool_decide_eq_true_2 by tauto
          | rewrite bool_decide_eq_false_2 by tauto ];
    by destruct el.
Qed.

Lemma shown_classList_contains (panel : option nat) (t j : nat) (el : tab_element)
    (c : string) :
  c <> "active" ->
  classList_contains c (shown_classList panel t j el) = classList_contains c (te_classList el).
Proof.
  intros Hc. unfold shown_classList.
  destruct (matches "tab-content" el || matches "tab-btn" el),
           (bool_decide (panel = Some j \/ t = j));
    by rewrite ?contains_add_ne, ?contains_remove_ne.
Qed.

Lemma shown_shown (panel : option nat) (t j : nat) (el : tab_element) :
  shown panel t j (shown panel t j el) = shown panel t j el.
Proof.
  rewrite (shown_normal panel t j (shown panel t j el)).
  rewrite !(shown_normal panel t j el). cbn [te_id te_data_tab]. f_equal.
  unfold shown_classList at 1. unfold matches. cbn [te_classList].
  rewrite !shown_classList_contains by done.
  unfold shown_classList, matches.
  destruct (classList_contains "tab-content" (te_classList el)
            || classList_contains "tab-btn" (te_classList el)),
           (bool_decide (panel = Some j \/ t = j));
    by rewrite ?remove_add, ?remove_remove, ?add_add.
Qed.

Lemma getElementById_imap (id : string) (f : nat -> tab_element -> tab_element)
    (doc : list tab_element) :
  (forall j el, te_id (f j el) = te_id el) ->
  getElementById id (imap f doc) = getElementById id doc.
Proof.
  unfold getElementById. revert f.
  induction doc as [|el doc IH]; intros f Hid; [done|].
  cbn [imap list_find]. rewrite Hid.
  destruct (decide (te_id el = id)); [done|].
  rewrite <- !option_fmap_compose.
  specialize (IH (f ∘ S) (fun j el => Hid (S j) el)).
  destruct (list_find _ (imap (f ∘ S) doc)) as [[a b]|],
           (list_find _ doc) as [[a' b']|]; cbn in *; congruence.
Qed.

Lemma filter_seq_eq (k n : nat) :
  (k < n)%nat -> filter (fun j => j = k) (seq 0 n) = [k].
Proof.
  intros Hk. replace n with (k + S (n - S k))%nat by lia.
  rewrite seq_app. cbn [seq]. rewrite list.filter_app, filter_cons_True by done.
  rewrite !filter_none; [done| |].
  - intros j Hj. apply elem_of_seq in Hj. lia.
  - intros j Hj. apply elem_of_seq in Hj. lia.
Qed.

Lemma active_of_shown (cls : string) (doc : list tab_element) (panel : option nat)
    (t k : nat) :
  cls = "tab-content" \/ cls = "tab-btn" ->
  (k < length doc)%nat ->
  (forall j el, doc !! j = Some el ->
     (matches cls el = true /\ (panel = Some j \/ t = j)) <-> j = k) ->
  active_of cls (imap (shown panel t) doc) = [k].
Proof.
  intros Hcls Hk Hiff. unfold active_of. rewrite length_imap.
  rewrite <- (filter_seq_eq k (length doc)) by done.
  apply filter_ext_in. intros j Hj. apply elem_of_seq in Hj as [_ Hj].
  destruct (lookup_lt_is_Some_2 doc j) as [el Hel]; [lia|].
  rewrite list_lookup_imap, Hel. cbn [fmap option_fmap option_map].
  rewrite <- (Hiff j el Hel).
  destruct (shown_attributes panel t j el) as (_ & _ & Htc & Htb).
  assert (matches cls (shown panel t j el) = matches cls el) as ->.
  { by destruct Hcls as [-> | ->]. }
  destruct (matches cls el) eqn:Hm; cbn [andb].
  - destruct (shown_active panel t j el) as [-> _].
    { destruct Hcls as [-> | ->]; rewrite Hm; [done|]. by rewrite orb_true_r. }
    split.
    + intros [= H]. apply bool_decide_eq_true in H. done.
    + intros [_ H]. f_equal. by apply bool_decide_eq_true.
  - split; [done|]. by intros [? _].
Qed.

(** C8. A click on the control of tab X, whose panel the page has, leaves
    exactly one panel marked active, the panel of X, and exactly one control
    marked active, the control clicked; no panel or control carries the mark
    twice; and a second click on the same control leaves the page exactly as
    the first left it. *)
Theorem tab_click_single_active (p : page) (t i : nat) (btn panel : tab_element)
    (X : string) :
  tabs p !! t = Some btn ->
  matches "tab-btn" btn = true -> matches "tab-content" btn = false ->
  te_data_tab btn = Some X ->
  getElementById (X +:+ "-tab") (tabs p) = Some i ->
  tabs p !! i = Some panel ->
  matches "tab-content" panel = true -> matches "tab-btn" panel = false ->
  exists p1,
    tab_btn_click t p = (Ok tt, p1)
    /\ active_of "tab-content" (tabs p1) = [i]
    /\ active_of "tab-btn" (tabs p1) = [t]
    /\ (forall j el, tabs p1 !! j = Some el ->
        matches "tab-content" el || matches "tab-btn" el = true ->
        (active_marks el <= 1)%nat)
    /\ tab_btn_click t p1 = (Ok tt, p1).
Proof.
  intros Hbtn Hb1 Hb2 Hdata Hfind Hpanel Hp1 Hp2.
  eexists. split; [by apply (tab_btn_click_run t btn)|].
  rewrite Hdata. change (default "null" (Some X)) with X. rewrite Hfind.
  cbn [tabs with_tabs]. split_and!.
  - apply active_of_shown; [by left | by apply lookup_lt_Some in Hpanel |].
    intros j el Hel. split.
    + intros [Hm [[= ->] | <-]]; [done|]. congruence.
    + intros ->. split; [congruence | by left].
  - apply active_of_shown; [by right | by apply lookup_lt_Some in Hbtn |].
    intros j el Hel. split.
    + intros [Hm [[= <-] | <-]]; [congruence | done].
    + intros ->. split; [congruence | by right].
  - intros j el Hel Hcls. apply list_lookup_imap_Some in Hel as (el0 & Hel0 & ->).
    destruct (shown_attributes (Some i) t j el0) as (_ & _ & Htc & Htb).
    rewrite Htc, Htb in Hcls. by apply shown_active.
  - erewrite (tab_btn_click_run t).
    + f_equal. cbn [tabs with_tabs].
      destruct (shown_attributes (Some i) t t btn) as (_ & -> & _ & _).
      rewrite Hdata. change (default "null" (Some X)) with X.
      rewrite getElementById_imap by (intros; apply shown_attributes).
      rewrite Hfind.
      change (with_tabs ?a (with_tabs ?b p)) with (with_tabs a p). f_equal.
      apply list_eq. intros j. rewrite !list_lookup_imap.
      destruct (tabs p !! j) as [el|]; [|done]. cbn. by rewrite shown_shown.
    + cbn [tabs with_tabs]. by rewrite list_lookup_imap, Hbtn.
    + destruct (shown_attributes (Some i) t t btn) as (_ & _ & _ & ->). done.
Qed.

Lemma tab_click_single_active_witness :
  exists p1,
    tab_btn_click 0 tabs_page = (Ok tt, p1)
    /\ active_of "tab-content" (tabs p1) = [3%nat]
    /\ active_of "tab-btn" (tabs p1) = [0%nat]
    /\ (forall j el, tabs p1 !! j = Some el ->
        matches "tab-content" el || matches "tab-btn" el = true ->
        (active_marks el <= 1)%nat)
    /\ tab_btn_click 0 p1 = (Ok tt, p1).
Proof.
  exact (tab_click_single_active tabs_page 0 3 _ _ "play"
           eq_refl eq_refl eq_refl eq_refl eq_refl eq_refl eq_refl eq_refl).
Defined.

(** ** The table rendered for a hand *)

Lemma forEach_appendChild {A : Type} (id : string) (g : A -> html) (l : list A) (p : page) :
  exists p',
    forEach l (fun a => appendChild id (g a)) p = (Ok tt, p')
    /\ innerHTML (elements p' id) = innerHTML (elements p id) ++ (g <$> l)
    /\ (forall id', id' <> id -> elements p' id' = elements p id').
Proof.
  revert p. induction l as [|a l IH]; intros p; cbn [forEach fmap list_fmap].
  - exists p. by rewrite app_nil_r.
  - rewrite bind_run. unfold appendChild at 1, update, modify.
    destruct (IH (with_elements
      (<[id := set_innerHTML (innerHTML (elements p id) ++ [g a]) (elements p id)]>
         (elements p)) p)) as (p' & Hrun & Hhtml & Hother).
    exists p'. split; [exact Hrun|]. split.
    + rewrite Hhtml. cbn. rewrite fn_lookup_insert. cbn. by rewrite <- app_assoc.
    + intros id' Hne. rewrite (Hother id' Hne). cbn. by rewrite fn_lookup_insert_ne.
Qed.


(** * Further properties *)

(** ** More frame lemmas *)

Lemma keeps_update {B : Type} (part : page -> B) (id : string) (f : element -> element) :
  (forall g p, part (with_elements g p) = part p) -> keeps part (update id f).
Proof. intros Hpart p. cbn. by rewrite Hpart. Qed.

Lemma keeps_alert {B : Type} (part : page -> B) (message : string) :
  (forall a p, part (with_alerts a p) = part p) -> keeps part (alert message).
Proof. intros Hpart p. cbn. by rewrite Hpart. Qed.

Lemma keeps_console_error {B : Type} (part : page -> B) (args : list string) :
  (forall c p, part (with_console c p) = part p) -> keeps part (console_error args).
Proof. intros Hpart p. cbn. by rewrite Hpart. Qed.

Lemma writes_only_try_catch (ids : list string) (body : M unit)
    (handler : string -> M unit) :
  writes_only ids body -> (forall e, writes_only ids (handler e)) ->
  writes_only ids (try_catch body handler).
Proof.
  intros Hb Hh p id Hid. unfold try_catch. specialize (Hb p id Hid).
  destruct (body p) as [[[]|e] p0]; cbn in Hb; [done|].
  by rewrite (Hh e p0 id Hid).
Qed.

(** Goals [keeps part m] for a part of the page other than its elements. *)
Ltac keeps_part :=
  repeat first
    [ progress intros
    | apply keeps_bind | apply keeps_ret | apply keeps_throw | apply keeps_get
    | apply keeps_property | apply keeps_await | apply keeps_forEach
    | apply keeps_try_catch_finally | apply keeps_try_catch
    | apply keeps_update; done
    | apply keeps_alert; done
    | apply keeps_console_error; done
    | apply keeps_modify; done
    | match goal with
      | |- keeps _ (if ?b then _ else _) => destruct b
      | |- keeps _ (match ?x with _ => _ end) => destruct x
      end ].

Ltac unfold_script :=
  unfold playHand_resume, playHand_begin, runTournament_resume, runTournament_begin,
    loadAgents_resume, agent_card_click, selectAgent, showTab,
    displayHand, displayGameTable, displayResult, displayTrace, displayCards,
    displayTournamentResults, results_entry, avg_return_text, appendChild.

Lemma displayHand_keeps_alerts (d : hand_data) (a : string) :
  keeps alerts (displayHand d a).
Proof. unfold_script. keeps_part. Qed.


Lemma displayTournamentResults_keeps_alerts r : keeps alerts (displayTournamentResults r).
Proof. unfold_script. keeps_part. Qed.

(** ** Rendering a hand *)







(** Runs the steps of a function of the page monad on a page. *)
Ltac exec :=
  repeat first
    [ rewrite bind_run
    | progress cbn [mret M_ret property throw await fst snd]
    | progress unfold modify, get, update, alert, console_error, appendChild ].

(** ** Playing a hand: the paths of a settled call *)

(** A response that says success and has no steps is rendered in part: the
    cards of the hand before are cleared, then reading the steps throws; the
    user is told the hand failed, the error goes to the console, and the
    totals, result and trace of the hand before stay, under empty card rows. *)
Theorem playHand_missing_steps_clears_cards (d : hand_data) (p : page) :
  truthy (hd_success d) = true -> hd_steps d = None ->
  exists p',
    playHand_resume (Parsed d) p = (Ok tt, p')
    /\ alerts p' = alerts p ++ ["Failed to play hand"]
    /\ console p'
       = console p ++ [["Error:";
            "TypeError: Cannot read properties of undefined (reading 'forEach')"]]
    /\ innerHTML (elements p' "player-cards") = []
    /\ innerHTML (elements p' "dealer-cards") = []
    /\ disabled (elements p' "play-btn") = false
    /\ (forall id, id ∉ ["player-cards"; "dealer-cards"; "play-btn"; "loading"] ->
        elements p' id = elements p id).
Proof.
  intros Hs Hsteps. eexists. split.
  - unfold playHand_resume, try_catch_finally, displayHand, displayGameTable.
    exec. rewrite Hs. exec. rewrite Hsteps. exec. reflexivity.
  - split_and!; try done.
    intros id Hid. rewrite !elem_of_cons, elem_of_nil in Hid.
    cbn -[insert]. rewrite !fn_lookup_insert_ne; [done|..]; intros <-; tauto.
Qed.

Lemma playHand_missing_steps_clears_cards_witness :
  exists p',
    playHand_resume (Parsed malformed_hand) example_played = (Ok tt, p')
    /\ alerts p' = alerts example_played ++ ["Failed to play hand"]
    /\ console p'
       = console example_played ++ [["Error:";
            "TypeError: Cannot read properties of undefined (reading 'forEach')"]]
    /\ innerHTML (elements p' "player-cards") = []
    /\ innerHTML (elements p' "dealer-cards") = []
    /\ disabled (elements p' "play-btn") = false
    /\ (forall id, id ∉ ["player-cards"; "dealer-cards"; "play-btn"; "loading"] ->
        elements p' id = elements example_played id).
Proof.
  exact (playHand_missing_steps_clears_cards malformed_hand example_played eq_refl eq_refl).
Defined.

(** Lookups of an element through the writes made to the elements. *)
Ltac lookups :=
  repeat first [ rewrite fn_lookup_insert | rewrite fn_lookup_insert_ne by done ].




Lemma playHand_resume_returns (r : reply hand_data) (p : page) :
  (playHand_resume r p).1 = Ok tt.
Proof.
  unfold playHand_resume, try_catch_finally.
  match goal with |- context [match ?b p with _ => _ end] => destruct (b p) as [[[]|e] p0] end;
    reflexivity.
Qed.

(** Whatever a play-hand call settles with, [playHand] returns normally and
    ends in one of two ways: the hand is shown (game content displayed,
    welcome message hidden) and nothing is alerted, or exactly one alert is
    raised and the display of game content and welcome message is as before. *)
Theorem playHand_shows_or_alerts_once (r : reply hand_data) (p : page) :
  exists p',
    playHand_resume r p = (Ok tt, p')
    /\ ((alerts p' = alerts p
         /\ display (elements p' "game-content") = "block"
         /\ display (elements p' "welcome-message") = "none")
        \/ (exists message, alerts p' = alerts p ++ [message]
            /\ display (elements p' "game-content") = display (elements p "game-content")
            /\ display (elements p' "welcome-message")
               = display (elements p "welcome-message"))).
Proof.
  exists (playHand_resume r p).2. split.
  { rewrite <- (playHand_resume_returns r p). by destruct (playHand_resume r p). }
  unfold playHand_resume, try_catch_finally.
  destruct r as [e|e|d]; [right; by eexists | right; by eexists |].
  exec. destruct (truthy (hd_success d)); [|right; by eexists].
  exec.
  pose proof (displayHand_keeps_alerts d (selectedAgent p) p) as Ha.
  pose proof (displayHand_writes d (selectedAgent p) p) as Hw.
  destruct (displayHand d (selectedAgent p) p) as [[[]|e] p1]; cbn [snd] in Ha, Hw.
  - left. exec. cbn -[insert]. split_and!; lookups; done.
  - right. exec. cbn -[insert]. eexists. split_and!; lookups.
    + by rewrite Ha.
    + rewrite Hw; [done|]. unfold hand_view_ids. not_in_list.
    + rewrite Hw; [done|]. unfold hand_view_ids. not_in_list.
Qed.

(** ** Running a tournament: the grid is written in one piece *)



(** ** The requests *)

Lemma Z_to_string_truthy (n : Z) : truthy (JStr (Z_to_string n)) = true.
Proof.
  unfold Z_to_string. destruct n as [|q|q]; [done| |done].
  cbn [Z.to_int NilZero.string_of_int]. unfold NilZero.string_of_uint.
  by destruct (Pos.to_uint q).
Qed.

(** The seed of a request is null when the seed input is empty or holds no
    leading integer, and is the integer typed otherwise, zero included: the
    decimal numeral of n is sent as n. Both controllers read their seed
    this way. *)
Theorem seed_forwarded (p : page) :
  exists agent_field hands_field p1 p2,
    playHand_begin p
    = (Ok {| url := "/api/play-hand"; method := "POST";
             body := [agent_field;
                      ("seed", json_value (seed_argument (value (elements p "seed-input"))))] |},
       p1)
    /\ runTournament_begin p
       = (Ok {| url := "/api/match"; method := "POST";
                body := [hands_field;
                         ("seed", json_value (seed_argument
                                    (value (elements p "tournament-seed-input"))))] |},
          p2)
    /\ forall text,
         (text = "" -> json_value (seed_argument text) = JNull)
         /\ (parseInt text = S754_nan -> json_value (seed_argument text) = JNull)
         /\ (forall n, - 2 ^ 53 < n < 2 ^ 53 -> text = Z_to_string n ->
             exists x, json_value (seed_argument text) = JNum x /\ f64_to_Z x = Some n).
Proof.
  eexists _, _, _, _. split; [by run|]. split; [by run|].
  intros text. split_and!.
  - by intros ->.
  - intros Hnan. unfold seed_argument. destruct (truthy (JStr text)) eqn:Ht; [|done].
    by rewrite Ht, Hnan.
  - intros n Hn ->. unfold seed_argument. rewrite Z_to_string_truthy.
    destruct (decide (n = 0)) as [->|Hne].
    + by eexists.
    + rewrite (parseInt_Z_to_string n Hne).
      destruct (f64_of_Z_exact n Hne Hn) as (Hex & _ & Hjs).
      exists (f64_of_Z n). rewrite Z_to_string_truthy. split; [exact Hjs | exact Hex].
Qed.

Lemma seed_forwarded_witness :
  (exists x, json_value (seed_argument "0") = JNum x /\ f64_to_Z x = Some 0)
  /\ (exists x, json_value (seed_argument "-42") = JNum x /\ f64_to_Z x = Some (-42))
  /\ json_value (seed_argument "abc") = JNull.
Proof.
  destruct (seed_forwarded blank_page) as (a & h & p1 & p2 & _ & _ & H).
  split_and!.
  - exact (proj2 (proj2 (H "0")) 0 ltac:(done) eq_refl).
  - exact (proj2 (proj2 (H "-42")) (-42) ltac:(done) eq_refl).
  - exact (proj1 (proj2 (H "abc")) eq_refl).
Defined.

(** A hand is requested for the agent whose card was clicked last, whatever
    card the selection has marked: after a click on the card of an agent of
    the catalog, the next play-hand request carries that agent's id. *)
Theorem request_names_clicked_agent (catalog : list Agent.t) (p : page) (i : nat)
    (agent : Agent.t) :
  catalog !! i = Some agent ->
  exists seed p',
    (agent_card_click i (loaded catalog p)).1 = Ok tt
    /\ playHand_begin (agent_card_click i (loaded catalog p)).2
       = (Ok {| url := "/api/play-hand"; method := "POST";
                body := [("agent_id", JStr (Agent.id agent)); ("seed", seed)] |}, p').
Proof.
  intros Hi. rewrite loaded_cards. unfold agent_card_click.
  rewrite bind_run. cbn [get agent_cards with_agent_cards].
  rewrite list_lookup_fmap, Hi. cbn [fmap option_fmap option_map new_agent_card ac_onclick fst snd].
  eexists _, _. split; [done|]. by run.
Qed.

Lemma request_names_clicked_agent_witness :
  exists seed p',
    (agent_card_click 2 (loaded [agent_EV; agent_NAIVE; agent_RANDOM] blank_page)).1 = Ok tt
    /\ playHand_begin
         (agent_card_click 2 (loaded [agent_EV; agent_NAIVE; agent_RANDOM] blank_page)).2
       = (Ok {| url := "/api/play-hand"; method := "POST";
                body := [("agent_id", JStr "RANDOM"); ("seed", seed)] |}, p').
Proof.
  exact (request_names_clicked_agent [agent_EV; agent_NAIVE; agent_RANDOM] blank_page 2
           agent_RANDOM eq_refl).
Defined.

(** ** Tab navigation: the edges *)

Lemma active_of_shown_none (cls : string) (doc : list tab_element) (panel : option nat)
    (t : nat) :
  cls = "tab-content" \/ cls = "tab-btn" ->
  (forall j el, doc !! j = Some el -> matches cls el = true ->
     panel <> Some j /\ t <> j) ->
  active_of cls (imap (shown panel t) doc) = [].
Proof.
  intros Hcls Hnone. unfold active_of. rewrite length_imap.
  apply filter_none. intros j Hj. apply elem_of_seq in Hj as [_ Hj].
  destruct (lookup_lt_is_Some_2 doc j) as [el Hel]; [lia|].
  rewrite list_lookup_imap, Hel. cbn [fmap option_fmap option_map].
  destruct (shown_attributes panel t j el) as (_ & _ & Htc & Htb).
  assert (matches cls (shown panel t j el) = matches cls el) as ->.
  { by destruct Hcls as [-> | ->]. }
  destruct (matches cls el) eqn:Hm; cbn [andb]; [|done].
  destruct (shown_active panel t j el) as [-> _].
  { destruct Hcls as [-> | ->]; rewrite Hm; [done|]. by rewrite orb_true_r. }
  destruct (Hnone j el Hel Hm) as [H1 H2].
  rewrite bool_decide_eq_false_2 by tauto. done.
Qed.

(** A click on a control whose panel the page does not have (no data-tab
    attribute, or no element with the id) still hides every panel: no panel
    is left active, and the control clicked is the one active control. *)
Theorem tab_click_without_panel (p : page) (t : nat) (btn : tab_element) :
  tabs p !! t = Some btn ->
  matches "tab-btn" btn = true -> matches "tab-content" btn = false ->
  getElementById (default "null" (te_data_tab btn) +:+ "-tab") (tabs p) = None ->
  exists p1,
    tab_btn_click t p = (Ok tt, p1)
    /\ active_of "tab-content" (tabs p1) = []
    /\ active_of "tab-btn" (tabs p1) = [t].
Proof.
  intros Hbtn Hb1 Hb2 Hfind.
  eexists. split; [by apply (tab_btn_click_run t btn)|].
  rewrite Hfind. cbn [tabs with_tabs]. split.
  - apply active_of_shown_none; [by left|].
    intros j el Hel Hm. split; [done|]. intros <-. congruence.
  - apply active_of_shown; [by right | by apply lookup_lt_Some in Hbtn |].
    intros j el Hel. split.
    + by intros [_ [? | <-]].
    + intros ->. split; [congruence | by right].
Qed.

Lemma tab_click_without_panel_witness :
  exists p1,
    tab_btn_click 2 tabs_page_no_about = (Ok tt, p1)
    /\ active_of "tab-content" (tabs p1) = []
    /\ active_of "tab-btn" (tabs p1) = [2%nat].
Proof.
  exact (tab_click_without_panel tabs_page_no_about 2 _ eq_refl eq_refl eq_refl eq_refl).
Defined.

(** [showTab] reads the target of the event being dispatched: called while
    no event is, it throws once it has taken the mark off every panel and
    control and put it on the panel, so that no control is left active
    unless it is the element found by id. *)
Theorem showTab_without_event_throws (tabName : option string) (p : page) :
  event p = None ->
  exists p',
    showTab tabName p
    = (Throw "TypeError: Cannot read properties of undefined (reading 'target')", p')
    /\ length (tabs p') = length (tabs p)
    /\ forall j el, tabs p' !! j = Some el ->
         matches "tab-content" el || matches "tab-btn" el = true ->
         matches "active" el = true ->
         getElementById (default "null" tabName +:+ "-tab") (tabs p) = Some j.
Proof.
  intros Hev.
  assert (forall j el (doc : list tab_element),
    ((fun btn => if matches "tab-btn" btn then te_update (classList_remove "active") btn
                 else btn) <$>
     ((fun tab => if matches "tab-content" tab then te_update (classList_remove "active") tab
                  else tab) <$> doc)) !! j = Some el ->
    matches "tab-content" el || matches "tab-btn" el = true ->
    matches "active" el = false) as Hoff.
  { intros j el doc. rewrite !list_lookup_fmap. destruct (doc !! j) as [el0|]; [|done].
    cbn. intros [= <-]. unfold matches, te_update.
    destruct (classList_contains "tab-content" (te_classList el0)) eqn:Htc;
      cbn [te_classList]; rewrite ?contains_remove_ne by done;
      destruct (classList_contains "tab-btn" (te_classList el0)) eqn:Htb;
      cbn [te_classList]; rewrite ?contains_remove_ne, ?Htc, ?Htb by done;
      intros Hcls; try done;
      rewrite ?remove_remove; apply classList_contains_remove. }
  unfold showTab. steps.
  rewrite !getElementById_fmap by (intros el; unfold te_update; by repeat case_match).
  destruct (getElementById _ (tabs p)) as [i|] eqn:Hfind; steps; rewrite Hev; steps;
    (eexists; split; [reflexivity|]); cbn [tabs with_tabs].
  - split; [by rewrite length_alter, !length_fmap|].
    intros j el Hel Hcls Hact. destruct (decide (i = j)) as [->|Hne]; [done|].
    rewrite list_lookup_alter_ne in Hel by done.
    rewrite (Hoff j el (tabs p) Hel Hcls) in Hact. done.
  - split; [by rewrite !length_fmap|].
    intros j el Hel Hcls Hact. rewrite (Hoff j el (tabs p) Hel Hcls) in Hact. done.
Qed.

Lemma showTab_without_event_throws_witness :
  exists p',
    showTab (Some "play") tabs_page
    = (Throw "TypeError: Cannot read properties of undefined (reading 'target')", p')
    /\ length (tabs p') = length (tabs tabs_page)
    /\ forall j el, tabs p' !! j = Some el ->
         matches "tab-content" el || matches "tab-btn" el = true ->
         matches "active" el = true ->
         getElementById (default "null" (Some "play") +:+ "-tab") (tabs tabs_page) = Some j.
Proof. exact (showTab_without_event_throws (Some "play") tabs_page eq_refl). Defined.

(** ** What each listener touches *)





Lemma handle_writes (ev : page_event) : writes_only (event_ids ev) (handle ev).
Proof.
  destruct ev; cbn [handle event_ids].
  - intros p id _. by rewrite loadAgents_resume_keeps_elements.
  - intros p id _. by rewrite agent_card_click_keeps_elements.
  - intros p id _. by rewrite tab_btn_click_keeps_elements.
  - apply writes_only_bind; [apply playHand_begin_writes | intros; apply writes_only_ret].
  - apply playHand_resume_writes.
  - apply writes_only_bind; [apply runTournament_begin_writes | intros; apply writes_only_ret].
  - apply runTournament_resume_writes.
Qed.



(** ** The loading indicators *)

Lemma begin_shows_loading (p : page) :
  display (elements (handle PlayClick p).2 "loading") = "block"
  /\ display (elements (handle RunClick p).2 "tournament-loading") = "block".
Proof. split; cbn [handle]; rewrite bind_run; run; cbn -[insert]. all: by rewrite fn_lookup_insert. Qed.

(** In every world the page can reach, the loading indicator of a call is
    displayed for as long as the call is in flight: it is shown by the click
    and no other listener, whichever view it renders, hides it before the
    call has settled. *)
Theorem loading_shown_while_in_flight (w : world) :
  reachable w ->
  (hand_pending w = true -> display (elements (pg w) "loading") = "block")
  /\ (match_pending w = true -> display (elements (pg w) "tournament-loading") = "block").
Proof.
  induction 1 as [p Hp Hr|w w' _ [IHh IHm] Hstep]; [done|].
  destruct Hstep as [w _|w r _|w _|w r _|w r|w i|w t];
    cbn [pg hand_pending match_pending]; (split; [intros Hh | intros Hm]); try done.
  all: try apply begin_shows_loading.
  all: match goal with |- context [handle ?ev] =>
         rewrite (handle_writes ev (pg w));
           [auto | cbn [event_ids]; unfold hand_ids, hand_view_ids, tournament_ids;
                   cbn [app]; first [not_in_list | apply not_elem_of_nil]]
       end.
Qed.

Lemma loading_shown_while_in_flight_witness :
  (hand_pending world_in_flight = true ->
     display (elements (pg world_in_flight) "loading") = "block")
  /\ (match_pending world_in_flight = true ->
     display (elements (pg world_in_flight) "tournament-loading") = "block").
Proof.
  exact (loading_shown_while_in_flight world_in_flight (proj1 world_settled_reachable)).
Defined.

(** However a call settles (its view rendered, a body that says no success,
    a rendering that throws, a rejected fetch or body), its loading
    indicator is hidden afterwards and the listener returns normally: no
    exception leaves [playHand] or [runTournament]. *)
Theorem settled_call_hides_loading (p : page) :
  (forall r : reply hand_data,
     (playHand_resume r p).1 = Ok tt
     /\ display (elements (playHand_resume r p).2 "loading") = "none")
  /\ (forall r : reply match_data,
     (runTournament_resume r p).1 = Ok tt
     /\ display (elements (runTournament_resume r p).2 "tournament-loading") = "none").
Proof.
  assert (forall (body : M unit) (handler : string -> M unit) (btn loading : string) q,
    (forall e q, exists q', handler e q = (Ok tt, q')) ->
    let m := try_catch_finally body handler
       (update btn (set_disabled false) ;; update loading (set_display "none")) in
    (m q).1 = Ok tt /\ display (elements (m q).2 loading) = "none") as Hfin.
  { intros body handler btn loading q Hh. cbn zeta. unfold try_catch_finally.
    destruct (body q) as [[[]|e] q0].
    - rewrite bind_run. unfold update, modify. cbn. by rewrite fn_lookup_insert.
    - destruct (Hh e q0) as [q1 ->]. rewrite bind_run. unfold update, modify. cbn.
      by rewrite fn_lookup_insert. }
  split; intros r; [unfold playHand_resume | unfold runTournament_resume];
    apply Hfin; intros e q; eexists; by run.
Qed.

(** ** The agent selector: loading and selecting *)


Lemma toggle_toggle (c : string) (force : bool) (l : list string) :
  classList_toggle c force (classList_toggle c force l) = classList_toggle c force l.
Proof. destruct force; [apply add_add | apply remove_remove]. Qed.

Lemma contains_toggle_ne (c c' : string) (force : bool) (l : list string) :
  c' <> c -> classList_contains c' (classList_toggle c force l) = classList_contains c' l.
Proof. destruct force; [apply contains_add_ne | apply contains_remove_ne]. Qed.

(** [selectAgent] changes nothing of a card but the class [selected]: the
    cards are as many as before, each with its content, its click handler
    and its other classes; and selecting the same agent a second time
    leaves the page exactly as the first selection left it. *)
Theorem selectAgent_preserves_cards (agentId agentName : string) (p : page) :
  exists p',
    selectAgent agentId agentName p = (Ok tt, p')
    /\ length (agent_cards p') = length (agent_cards p)
    /\ (forall i card', agent_cards p' !! i = Some card' ->
          exists card, agent_cards p !! i = Some card
            /\ ac_innerHTML card' = ac_innerHTML card
            /\ ac_onclick card' = ac_onclick card
            /\ forall c, c <> "selected" ->
                 classList_contains c (ac_classList card')
                 = classList_contains c (ac_classList card))
    /\ selectAgent agentId agentName p' = (Ok tt, p').
Proof.
  eexists. split; [reflexivity|].
  cbn [agent_cards with_agent_cards with_selectedAgent selectedAgent].
  split; [apply length_imap|]. split.
  - intros i card'. rewrite list_lookup_imap.
    destruct (agent_cards p !! i) as [card|]; [|done].
    cbn -[classList_toggle]. intros [= <-]. exists card. split_and!; try done.
    intros c Hc. cbn -[classList_toggle]. by apply contains_toggle_ne.
  - unfold selectAgent. exec. cbn -[classList_toggle]. f_equal.
    unfold with_agent_cards, with_selectedAgent. cbn -[classList_toggle]. f_equal.
    apply list_eq. intros i. rewrite !list_lookup_imap.
    destruct (agent_cards p !! i) as [card|]; [|done].
    cbn -[classList_toggle]. by rewrite toggle_toggle.
Qed.

(** ** Card faces *)

(** [cardEmojis[card] || fallback] has a face for the ten ranks only, and
    the same face whether the rank arrives as a number or as its numeral;
    every other integer, and every value that is not a number or a string
    (null, undefined, a boolean), shows the fallback. *)
Theorem card_face_ranks (n : Z) (fallback : string) :
  (1 <= n <= 10 ->
     exists face, cardEmojis n = Some face
       /\ card_face (js_int n) fallback = face
       /\ card_face (JStr (Z_to_string n)) fallback = face)
  /\ (n < 1 \/ 10 < n -> - 2 ^ 53 < n < 2 ^ 53 -> card_face (js_int n) fallback = fallback)
  /\ card_face JNull fallback = fallback
  /\ card_face JUndefined fallback = fallback
  /\ (forall b, card_face (JBool b) fallback = fallback).
Proof.
  split_and!; try done.
  - intros Hn.
    assert (n = 1 \/ n = 2 \/ n = 3 \/ n = 4 \/ n = 5 \/ n = 6 \/ n = 7 \/ n = 8
            \/ n = 9 \/ n = 10) as Hcases by lia.
    repeat (destruct Hcases as [->|Hcases]); [..|subst n]; by eexists.
  - intros Hout Hb. unfold card_face, js_int, card_key.
    destruct (decide (n = 0)) as [->|Hne]; [done|].
    destruct (f64_of_Z_exact n Hne Hb) as (-> & _).
    cbn [mbind option_bind]. destruct n as [|q|q]; [done| |done].
    do 4 (try (destruct q as [q|q|]; try done; try lia)).
Qed.

(** ** The unused [displayCards] *)

Lemma displayGameTable_totals (summary : Summary.t) (steps : list Step.t) (p : page) :
  exists p',
    displayGameTable (Some summary) (Some steps) p = (Ok tt, p')
    /\ innerHTML (elements p' "player-total")
       = [Text "Total: ";
          Elem "strong" "" "" [Text (Z_to_string (Summary.player_total summary))]]
    /\ innerHTML (elements p' "dealer-total")
       = [Text "Total: ";
          Elem "strong" "" "" [Text (Z_to_string (Summary.dealer_total summary))]].
Proof.
  unfold displayGameTable.
  destruct (extractCards steps) as [pc dc] eqn:Hcards.
  rewrite bind_run. unfold update at 1, modify at 1.
  rewrite bind_run. unfold update at 1, modify at 1.
  rewrite bind_run. cbn [property mret M_ret]. rewrite Hcards.
  set (p0 := with_elements _ _).
  assert (exists p1,
    (if (0 <? length pc)%nat
     then forEach pc (fun card => appendChild "player-cards" (card_element card))
     else mret tt) p0 = (Ok tt, p1)) as (p1 & Hrun1).
  { destruct (0 <? length pc)%nat; [|by eexists].
    destruct (forEach_appendChild "player-cards" card_element pc p0) as (p1 & Hrun & _).
    by exists p1. }
  rewrite bind_run, Hrun1.
  assert (exists p2,
    (if (0 <? length dc)%nat
     then forEach dc (fun card => appendChild "dealer-cards" (card_element card))
     else mret tt) p1 = (Ok tt, p2)) as (p2 & Hrun2).
  { destruct (0 <? length dc)%nat; [|by eexists].
    destruct (forEach_appendChild "dealer-cards" card_element dc p1) as (p2 & Hrun & _).
    by exists p2. }
  rewrite bind_run, Hrun2.
  eexists. split; [by run|]. cbn -[insert]. by lookups.
Qed.

(** [displayCards], which nothing calls, is the table without its cards: it
    clears both hands and writes the two totals exactly as
    [displayGameTable] writes them, touching nothing else; and where
    [displayGameTable] has cleared the hands by the time a missing summary
    makes it throw, [displayCards] reads the summary first and throws with
    the page as it was. *)
Theorem displayCards_totals_without_cards (p : page) :
  displayCards None p
    = (Throw "TypeError: Cannot read properties of undefined (reading 'player_total')", p)
  /\ forall summary : Summary.t,
       exists p',
         displayCards (Some summary) p = (Ok tt, p')
         /\ innerHTML (elements p' "player-cards") = []
         /\ innerHTML (elements p' "dealer-cards") = []
         /\ (forall steps id, id = "player-total" \/ id = "dealer-total" ->
               innerHTML (elements p' id)
               = innerHTML (elements (displayGameTable (Some summary) (Some steps) p).2 id))
         /\ (forall id, id ∉ ["player-cards"; "dealer-cards"; "player-total"; "dealer-total"] ->
               elements p' id = elements p id).
Proof.
  split; [done|]. intros summary. eexists. split; [unfold displayCards; by run|].
  cbn -[insert]. split_and!.
  - by lookups.
  - by lookups.
  - intros steps id Hid.
    destruct (displayGameTable_totals summary steps p) as (p1 & -> & Hp & Hd).
    cbn [snd]. destruct Hid as [-> | ->]; [rewrite Hp | rewrite Hd]; by lookups.
  - intros id Hid. rewrite !elem_of_cons, elem_of_nil in Hid.
    rewrite !fn_lookup_insert_ne; [done|..]; intros <-; tauto.
Qed.

(** ** Playing a hand: a response without its summary *)




(** ** A selection made while a call is in flight *)

Section Commute.
Variable f : page -> page.
Hypothesis f_elements : forall p, elements (f p) = elements p.
Hypothesis f_alerts : forall p, alerts (f p) = alerts p.
Hypothesis f_console : forall p, console (f p) = console p.
Hypothesis f_with_elements : forall g p, f (with_elements g p) = with_elements g (f p).
Hypothesis f_with_alerts : forall a p, f (with_alerts a p) = with_alerts a (f p).
Hypothesis f_with_console : forall c p, f (with_console c p) = with_console c (f p).

Lemma commutes_ret {A : Type} (a : A) : commutes f (mret a).
Proof. by intros p. Qed.

Lemma commutes_throw {A : Type} (e : string) : commutes f (@throw A e).
Proof. by intros p. Qed.

Lemma commutes_property {A : Type} (o : option A) (name : string) :
  commutes f (property o name).
Proof. destruct o; [apply commutes_ret | apply commutes_throw]. Qed.

Lemma commutes_await {D : Type} (r : reply D) : commutes f (await r).
Proof. destruct r; by intros p. Qed.

Lemma commutes_bind {A C : Type} (m : M A) (k : A -> M C) :
  commutes f m -> (forall a, commutes f (k a)) -> commutes f (m ≫= k).
Proof.
  intros Hm Hk p. rewrite !bind_run, Hm.
  destruct (m p) as [[a|e] p0]; cbn [fst snd]; [apply Hk | done].
Qed.

Lemma commutes_update (id : string) (g : element -> element) : commutes f (update id g).
Proof. intros p. unfold update, modify. cbn [fst snd]. by rewrite f_with_elements, f_elements. Qed.

Lemma commutes_alert (message : string) : commutes f (alert message).
Proof. intros p. unfold alert, modify. cbn [fst snd]. by rewrite f_with_alerts, f_alerts. Qed.

Lemma commutes_console_error (args : list string) : commutes f (console_error args).
Proof.
  intros p. unfold console_error, modify. cbn [fst snd].
  by rewrite f_with_console, f_console.
Qed.

Lemma commutes_forEach {A : Type} (l : list A) (k : A -> M unit) :
  (forall a, commutes f (k a)) -> commutes f (forEach l k).
Proof.
  intros Hk. induction l as [|a l IH]; cbn [forEach]; [apply commutes_ret|].
  apply commutes_bind; [apply Hk | by intros _].
Qed.

Lemma commutes_try_catch_finally (body : M unit) (handler : string -> M unit)
    (finalizer : M unit) :
  commutes f body -> (forall e, commutes f (handler e)) -> commutes f finalizer ->
  commutes f (try_catch_finally body handler finalizer).
Proof.
  intros Hb Hh Hf p. unfold try_catch_finally. rewrite Hb.
  destruct (body p) as [[[]|e] p0]; cbn [fst snd].
  - rewrite Hf. by destruct (finalizer p0) as [[[]|e] p1].
  - rewrite Hh. destruct (handler e p0) as [r p1]. cbn [fst snd].
    rewrite Hf. by destruct (finalizer p1) as [[[]|e'] p2].
Qed.

Lemma commutes_get_any {A C : Type} (g : page -> A) (k : A -> M C) :
  (forall a b, k a = k b) -> (forall a, commutes f (k a)) -> commutes f (get g ≫= k).
Proof.
  intros Hsame Hk p. rewrite !bind_run. unfold get. rewrite (Hsame (g (f p)) (g p)).
  apply Hk.
Qed.

Ltac commute :=
  repeat first
    [ progress intros
    | apply commutes_get_any; [done|]
    | apply commutes_bind | apply commutes_ret | apply commutes_throw
    | apply commutes_property | apply commutes_await | apply commutes_forEach
    | apply commutes_try_catch_finally
    | apply commutes_update | apply commutes_alert | apply commutes_console_error
    | match goal with
      | |- commutes _ (if ?b then _ else _) => destruct b
      | |- commutes _ (match ?x with _ => _ end) => destruct x
      end ].

Lemma playHand_resume_commutes (r : reply hand_data) : commutes f (playHand_resume r).
Proof. unfold_script. commute. Qed.

Lemma runTournament_resume_commutes (r : reply match_data) :
  commutes f (runTournament_resume r).
Proof. unfold_script. commute. Qed.

End Commute.

(** A click on an agent card and the settling of a call commute: what a
    settled play-hand or tournament call renders, alerts and logs does not
    depend on the agent selected while it was in flight, and the selection
    is the same whether it is made before or after the call settles. *)
Theorem selection_commutes_with_settling (i : nat) (p : page) :
  (forall r : reply hand_data,
     (handle (HandSettled r) (handle (AgentCardClick i) p).2).2
     = (handle (AgentCardClick i) (handle (HandSettled r) p).2).2)
  /\ (forall r : reply match_data,
     (handle (MatchSettled r) (handle (AgentCardClick i) p).2).2
     = (handle (AgentCardClick i) (handle (MatchSettled r) p).2).2).
Proof.
  set (f := fun q => (handle (AgentCardClick i) q).2).
  assert (forall A (m : M A), commutes f m -> forall q, (m (f q)).2 = f (m q).2) as Hc.
  { intros A m Hm q. by rewrite Hm. }
  assert (forall g q, f (with_elements g q) = with_elements g (f q)) as H1.
  { intros g q. subst f. cbv beta. cbn [handle]. unfold agent_card_click.
    rewrite ?bind_run. unfold get.
    cbn [agent_cards with_elements with_alerts with_console].
    by destruct (agent_cards q !! i). }
  assert (forall a q, f (with_alerts a q) = with_alerts a (f q)) as H2.
  { intros a q. subst f. cbv beta. cbn [handle]. unfold agent_card_click.
    rewrite ?bind_run. unfold get.
    cbn [agent_cards with_elements with_alerts with_console].
    by destruct (agent_cards q !! i). }
  assert (forall c q, f (with_console c q) = with_console c (f q)) as H3.
  { intros c q. subst f. cbv beta. cbn [handle]. unfold agent_card_click.
    rewrite ?bind_run. unfold get.
    cbn [agent_cards with_elements with_alerts with_console].
    by destruct (agent_cards q !! i). }
  assert (forall q, elements (f q) = elements q) as H4.
  { intros q. subst f. cbv beta. cbn [handle]. unfold agent_card_click.
    rewrite ?bind_run. unfold get.
    cbn [agent_cards with_elements with_alerts with_console].
    by destruct (agent_cards q !! i). }
  assert (forall q, alerts (f q) = alerts q) as H5.
  { intros q. subst f. cbv beta. cbn [handle]. unfold agent_card_click.
    rewrite ?bind_run. unfold get.
    cbn [agent_cards with_elements with_alerts with_console].
    by destruct (agent_cards q !! i). }
  assert (forall q, console (f q) = console q) as H6.
  { intros q. subst f. cbv beta. cbn [handle]. unfold agent_card_click.
    rewrite ?bind_run. unfold get.
    cbn [agent_cards with_elements with_alerts with_console].
    by destruct (agent_cards q !! i). }
  split; intros r; cbn [handle]; apply (Hc _ _).
  - by apply playHand_resume_commutes.
  - by apply runTournament_resume_commutes.
Qed.

(** ** The win rate of a slot without hands *)

(** [winRate] divides by the number of hands without a guard: for a slot
    with no hands the cell reads NaN when it has no wins either, and
    Infinity or -Infinity, by the sign of the wins, when it has some. *)
Theorem winRate_zero_hands (stats : Stats.t) :
  Stats.hands stats = 0 -> - 2 ^ 53 < Stats.wins stats < 2 ^ 53 ->
  winRate stats
  = match Stats.wins stats with
    | 0 => "NaN"
    | Z.pos _ => "Infinity"
    | Z.neg _ => "-Infinity"
    end.
Proof.
  intros Hh Hw. unfold winRate. rewrite Hh.
  destruct (Stats.wins stats) as [|w|w]; [done|..].
  - unfold f64_of_Z at 1, binary_normalize.
    destruct (f64_of_pos_exact false w) as (m & e & -> & _); [lia|]. done.
  - unfold f64_of_Z at 1, binary_normalize.
    destruct (f64_of_pos_exact true w) as (m & e & -> & _); [lia|]. done.
Qed.

Lemma winRate_zero_hands_witness :
  winRate (Stats.mk "EV" 0 3 0 0 (js_int 0)) = "Infinity".
Proof. exact (winRate_zero_hands (Stats.mk "EV" 0 3 0 0 (js_int 0)) eq_refl ltac:(done)). Defined.

(** ** A response that does not say success *)

(** The success of a response is tested for truthiness, so a response
    without the field, or with null, 0 or an empty string in it, is a
    failure like [false]: one alert made of the fixed prefix and the error
    of the response, which reads undefined when the response has none;
    nothing goes to the console and no element changes but the button and
    the loading indicator. *)
Theorem falsy_success_alerts_error (p : page) :
  (forall d : hand_data, truthy (hd_success d) = false ->
     exists p',
       playHand_resume (Parsed d) p = (Ok tt, p')
       /\ alerts p' = alerts p ++ ["Error playing hand: " +:+ default "undefined" (hd_error d)]
       /\ console p' = console p
       /\ forall id, id <> "play-btn" -> id <> "loading" -> elements p' id = elements p id)
  /\ (forall d : match_data, truthy (md_success d) = false ->
     exists p',
       runTournament_resume (Parsed d) p = (Ok tt, p')
       /\ alerts p'
          = alerts p ++ ["Error running tournament: " +:+ default "undefined" (md_error d)]
       /\ console p' = console p
       /\ forall id, id <> "run-tournament-btn" -> id <> "tournament-loading" ->
            elements p' id = elements p id)
  /\ truthy JUndefined = false /\ truthy JNull = false /\ truthy (js_int 0) = false
  /\ truthy (JStr "") = false /\ truthy (JStr "false") = true.
Proof.
  split_and!; try done.
  - intros d Hs. eexists. split.
    + unfold playHand_resume, try_catch_finally. exec. rewrite Hs. exec. reflexivity.
    + split_and!; try done. intros id H1 H2. cbn -[insert]. by lookups.
  - intros d Hs. eexists. split.
    + unfold runTournament_resume, try_catch_finally. exec. rewrite Hs. exec. reflexivity.
    + split_and!; try done. intros id H1 H2. cbn -[insert]. by lookups.
Qed.

(** ** No exception leaves a listener *)

Lemma runTournament_resume_returns (r : reply match_data) (p : page) :
  (runTournament_resume r p).1 = Ok tt.
Proof.
  unfold runTournament_resume, try_catch_finally.
  match goal with |- context [match ?b p with _ => _ end] => destruct (b p) as [[[]|e] p0] end;
    reflexivity.
Qed.

(** On a page that has the elements the script looks up by id, every
    listener returns normally, whatever a call settles with: the two calls and the loading of the
    agents catch what their bodies throw, a click on a card or on a tab
    control has nothing that throws ([showTab] finds the event its listener
    is dispatched with), and the clicks on the two buttons only read the
    inputs and lock the button. *)
Theorem listeners_return_normally (ev : page_event) (p : page) :
  (handle ev p).1 = Ok tt.
Proof.
  destruct ev as [r|i|t| |r| |r]; cbn [handle].
  - unfold loadAgents_resume, try_catch.
    match goal with |- context [match ?b p with _ => _ end] =>
      destruct (b p) as [[[]|e] p0] end; reflexivity.
  - unfold agent_card_click. exec. by destruct (agent_cards p !! i).
  - destruct (tabs p !! t) as [btn|] eqn:Hbtn.
    + destruct (matches "tab-btn" btn) eqn:Hcls.
      * by rewrite (tab_btn_click_run t btn p Hbtn Hcls).
      * unfold tab_btn_click. by rewrite Hbtn, Hcls.
    + unfold tab_btn_click. by rewrite Hbtn.
  - reflexivity.
  - apply playHand_resume_returns.
  - reflexivity.
  - apply runTournament_resume_returns.
Qed.
